(** * netneurotools.stats: spin-test resampling and permutation tests

    A shallow embedding of [_gen_rotation], [gen_spinsamples] and the three
    permutation tests of [netneurotools/stats.py].

    - numpy arrays are a shape together with their row-major data;
    - Python exceptions are the [Raise] branch of a small error monad;
    - the seeded random source is threaded explicitly as a state;
    - numpy / scipy routines the module calls but does not define
      (QR, determinant, k-d tree query, distance matrix, linear sum
      assignment, the random draws) are fields of a type class, and the
      properties their documentation promises are a second class of laws. *)

From Stdlib Require Import List ZArith QArith Bool Arith Lia Permutation FinFun.
From Stdlib Require String Ascii.
Import ListNotations.

Local Close Scope Q_scope.
Local Open Scope nat_scope.

Set Implicit Arguments.

(* ================================================================== *)
(** ** Python exceptions and results *)

Module Py.

(** The exceptions the modelled code can raise.  The first four are the
    [raise ValueError(...)] statements of [gen_spinsamples], in source
    order; the others come from numpy / scipy primitives. *)
Inductive exn : Type :=
| CoordsShapeError      (* 'Provided `coords` must be of shape (N, 3)' *)
| HemiidDimError        (* 'Provided `hemiid` array must be one-dimensional.' *)
| LengthMismatchError   (* '`coords` and `hemiid` must have the same length' *)
| HemiidDomainError     (* 'Hemiid must have values in {0, 1}' *)
| TupleIndexError       (* shape[-1] of a 0-d array *)
| EmptyReductionError   (* np.max / np.min of an empty array *)
| IndexError            (* integer index out of bounds *)
| AssignShapeError      (* boolean-mask assignment with mismatched sizes *)
| ScipyShapeError       (* scipy.spatial refusing data that is not 2-D *)
| ArrayLengthError      (* 'Provided arrays do not have same length' *)
| ResampleSizeError     (* 'Number of permutations requested exceeds size' *)
| BroadcastError        (* operands could not be broadcast together *)
| AxisError             (* axis out of bounds for the array *)
| AttributeError.       (* an attribute a Python float does not have *)

Inductive result (A : Type) : Type :=
| Return (a : A)
| Raise (e : exn).
Arguments Return {A} a.
Arguments Raise {A} e.

Definition bind {A B} (m : result A) (k : A -> result B) : result B :=
  match m with
  | Return a => k a
  | Raise e => Raise e
  end.

Fixpoint mapM {A B} (f : A -> result B) (l : list A) : result (list B) :=
  match l with
  | [] => Return []
  | x :: t =>
      bind (f x) (fun y => bind (mapM f t) (fun ys => Return (y :: ys)))
  end.

End Py.
Import Py.

Notation "x <- m ;; k" := (Py.bind m (fun x => k))
  (at level 61, m at next level, right associativity).
Notation "' pat <- m ;; k" := (Py.bind m (fun x => match x with pat => k end))
  (at level 61, pat pattern, m at next level, right associativity).

(* ================================================================== *)
(** ** numpy arrays *)

Module Np.

Record ndarray (A : Type) : Type := { shape : list nat; data : list A }.

Definition size_of (s : list nat) : nat := fold_right Nat.mul 1 s.

(** Every numpy array holds as many items as its shape says. *)
Definition wf {A} (a : ndarray A) : Prop :=
  length (data a) = size_of (shape a).

Definition ndim {A} (a : ndarray A) : nat := length (shape a).

(** [a.squeeze()]: drop the axes of length one. *)
Definition squeeze_shape (s : list nat) : list nat :=
  filter (fun d => negb (d =? 1)) s.

Definition squeeze {A} (a : ndarray A) : ndarray A :=
  {| shape := squeeze_shape (shape a); data := data a |}.

(** [a.shape[-1]]; a 0-d array has the empty tuple as shape. *)
Definition last_dim {A} (a : ndarray A) : result nat :=
  match rev (shape a) with
  | d :: _ => Return d
  | [] => Raise TupleIndexError
  end.

(** [len(a)] for an array of at least one dimension. *)
Definition len {A} (a : ndarray A) : nat := hd 0 (shape a).

(** Cut [l] into [n] consecutive pieces of [k] items. *)
Fixpoint chunks {A} (k n : nat) (l : list A) : list (list A) :=
  match n with
  | 0 => []
  | S n' => firstn k l :: chunks k n' (skipn k l)
  end.

(** The items of [a] along its first axis, each one flattened. *)
Definition rows {A} (a : ndarray A) : list (list A) :=
  chunks (size_of (tl (shape a))) (len a) (data a).

(** [np.arange(n)] *)
Definition arange (n : nat) : list Z := map Z.of_nat (seq 0 n).

(** [a[mask]] for a boolean mask along the first axis. *)
Fixpoint select {A} (mask : list bool) (l : list A) : list A :=
  match mask, l with
  | b :: m, x :: t => if b then x :: select m t else select m t
  | _, _ => []
  end.

Definition count_true (mask : list bool) : nat :=
  length (filter (fun b => b) mask).

(** [a[idx]] for an array of non-negative integer indices. *)
Definition take {A} (l : list A) (idx : list nat) : result (list A) :=
  mapM (fun j => match nth_error l j with
                 | Some x => Return x
                 | None => Raise IndexError
                 end) idx.

(** The cells of [arr] under [mask] receive [vals] in order. *)
Fixpoint mask_fill {A} (mask : list bool) (vals arr : list A) : list A :=
  match mask, arr with
  | true :: m, x :: t =>
      match vals with
      | v :: vs => v :: mask_fill m vs t
      | [] => x :: mask_fill m [] t
      end
  | false :: m, x :: t => x :: mask_fill m vals t
  | _, _ => arr
  end.

(** [arr[mask] = vals]: the sizes must agree, except that a single value
    is broadcast to every selected cell. *)
Definition mask_assign {A} (mask : list bool) (vals arr : list A)
  : result (list A) :=
  if negb (length mask =? length arr) then Raise IndexError
  else if length vals =? count_true mask then Return (mask_fill mask vals arr)
  else match vals with
       | [v] => Return (mask_fill mask (repeat v (count_true mask)) arr)
       | _ => Raise AssignShapeError
       end.

(** The storage cast to dtype int32: two's-complement wrap-around. *)
Definition int32 (z : Z) : Z := ((z + 2 ^ 31) mod 2 ^ 32 - 2 ^ 31)%Z.

(** [a.astype(int)] on a float: truncation toward zero. *)
Definition astype_int (q : Q) : Z := Z.quot (Qnum q) (Z.pos (Qden q)).

(** Column [j] of a matrix given by rows, and [m[:, j] = v]. *)
Definition column {A} (d : A) (j : nat) (m : list (list A)) : list A :=
  map (fun row => nth j row d) m.

Fixpoint set_nth {A} (j : nat) (v : A) (l : list A) : list A :=
  match l, j with
  | [], _ => []
  | _ :: t, 0 => v :: t
  | x :: t, S j' => x :: set_nth j' v t
  end.

Fixpoint set_column {A} (j : nat) (v : list A) (m : list (list A))
  : list (list A) :=
  match m, v with
  | row :: m', x :: v' => set_nth j x row :: set_column j v' m'
  | _, _ => m
  end.

Definition zeros {A} (z : A) (n : nat) : list A := repeat z n.

(** Two masks that never select the same cell. *)
Definition disjoint (m1 m2 : list bool) : Prop :=
  Forall2 (fun a b => a && b = false) m1 m2.

(** The donors a resampling vector gives to the cells of a mask are
    themselves cells of the mask. *)
Definition within (mask : list bool) (n : nat) (col : list Z) : Prop :=
  Forall (fun x => In x (select mask (arange n))) (select mask col).

(** On the cells of a mask a resampling vector is a rearrangement of
    those cells. *)
Definition bijective_on (mask : list bool) (n : nat) (col : list Z) : Prop :=
  Permutation (select mask col) (select mask (arange n)).

End Np.
Import Np.

(* ================================================================== *)
(** ** Floating-point values and the external routines *)

(** float64 values, as far as the module uses them. *)
Class Float64 : Type := {
  F : Type;
  f_zero : F;
  f_one : F;
  f_add : F -> F -> F;
  f_mul : F -> F -> F;
  f_neg : F -> F;
  f_abs : F -> F;
  f_ltb : F -> F -> bool;
  f_leb : F -> F -> bool;
}.

Definition matrix `{Float64} : Type := list (list F).

(** numpy, scipy and sklearn routines used by the module. *)
Class Collaborators `{Float64} : Type := {
  RandomState : Type;
  (** [np.random.RandomState(seed)] *)
  RandomState_of_seed : Z -> RandomState;
  (** [rs.normal(size=(r, c))] *)
  rs_normal : RandomState -> nat -> nat -> matrix * RandomState;
  (** [np.linalg.qr] and [np.linalg.det] *)
  linalg_qr : matrix -> matrix * matrix;
  linalg_det : matrix -> F;
  (** [scipy.spatial.distance_matrix(x, y)] *)
  distance_matrix : matrix -> matrix -> matrix;
  (** [scipy.optimize.linear_sum_assignment(cost)]: row and column indices *)
  linear_sum_assignment : matrix -> list nat * list nat;
  (** [scipy.spatial.cKDTree(data).query(x, 1)]: distances and indices *)
  cKDTree_query : matrix -> matrix -> list F * list nat;
}.

Section Linalg.
Context `{Float64}.

Definition f_sum (l : list F) : F := fold_left f_add l f_zero.

Fixpoint zip_with {A B C} (f : A -> B -> C) (u : list A) (v : list B)
  : list C :=
  match u, v with
  | x :: u', y :: v' => f x y :: zip_with f u' v'
  | _, _ => []
  end.

Definition dot (u v : list F) : F := f_sum (zip_with f_mul u v).

Definition ncols (m : matrix) : nat :=
  match m with
  | [] => 0
  | r :: _ => length r
  end.

(** [a @ b] *)
Definition matmul (a b : matrix) : matrix :=
  map (fun row => map (fun j => dot row (column f_zero j b))
                      (seq 0 (ncols b))) a.

(** [np.diag] of a matrix (its diagonal) and of a vector (a matrix). *)
Definition diag_of (m : matrix) : list F :=
  map (fun i => nth i (nth i m []) f_zero) (seq 0 (length m)).

Definition diag_matrix (v : list F) : matrix :=
  map (fun i => map (fun j => if i =? j then nth i v f_zero else f_zero)
                    (seq 0 (length v)))
      (seq 0 (length v)).

(** [np.sign] *)
Definition sign (x : F) : F :=
  if f_ltb x f_zero then f_neg f_one
  else if f_ltb f_zero x then f_one
  else f_zero.

(** [m[:, 0] = -m[:, 0]] *)
Definition negate_column0 (m : matrix) : matrix :=
  map (fun row => match row with
                  | [] => []
                  | x :: t => f_neg x :: t
                  end) m.

End Linalg.

(* ================================================================== *)
(** ** The rotation generator *)

Section Rotation.
Context `{Collaborators}.

(** The [seed] argument: [None], an integer, or a RandomState. *)
Inductive seed_arg : Type :=
| SeedNone
| SeedInt (n : Z)
| SeedInstance (rs : RandomState).

(** [sklearn.utils.check_random_state]; [np_random] is the state of
    numpy's process-wide generator at the time of the call. *)
Definition check_random_state (np_random : RandomState) (seed : seed_arg)
  : RandomState :=
  match seed with
  | SeedNone => np_random
  | SeedInt n => RandomState_of_seed n
  | SeedInstance rs => rs
  end.

(** for reflecting across Y-Z plane *)
Definition reflect : matrix :=
  [ [f_neg f_one; f_zero; f_zero];
    [f_zero; f_one; f_zero];
    [f_zero; f_zero; f_one] ].

(** [_gen_rotation]: the two rotations and the generator state left
    behind by the draw. *)
Definition _gen_rotation (np_random : RandomState) (seed : seed_arg)
  : matrix * matrix * RandomState :=
  let rs := check_random_state np_random seed in
  (* generate rotation for left *)
  let '(normal, rs) := rs_normal rs 3 3 in
  let '(rotate_l, temp) := linalg_qr normal in
  let rotate_l := matmul rotate_l (diag_matrix (map sign (diag_of temp))) in
  let rotate_l :=
    if f_ltb (linalg_det rotate_l) f_zero
    then negate_column0 rotate_l
    else rotate_l in
  (* reflect the left rotation across Y-Z plane *)
  let rotate_r := matmul (matmul reflect rotate_l) reflect in
  (rotate_l, rotate_r, rs).

End Rotation.


(* ================================================================== *)
(** ** The spin-sample generator *)

Section Spin.
Context `{Collaborators}.

(** What [warnings.warn] was called with. *)
Inductive warning : Type :=
| DuplicateRotationsWarning.   (* 'Duplicate rotations used. ...' *)

(** The variables of [gen_spinsamples] that change from one rotation to
    the next.  [attempts] records the final value of [count] for every
    finished column and [warnings] every warning issued, oldest first;
    both are observations, the source does not store them. *)
Record spin_state : Type := {
  spinsamples : list (list Z);
  cost : list F;
  warned : bool;
  warnings : list warning;
  attempts : list nat;
  rng : RandomState;
}.

Definition max_attempts : nat := 500.

(** [np.max] and [np.min] of an integer array. *)
Definition np_max (l : list Z) : result Z :=
  match l with
  | [] => Raise EmptyReductionError
  | x :: t => Return (fold_left Z.max t x)
  end.

Definition np_min (l : list Z) : result Z :=
  match l with
  | [] => Raise EmptyReductionError
  | x :: t => Return (fold_left Z.min t x)
  end.

(** Two index arrays used together, [m[rows, cols]], are broadcast
    against each other. *)
Definition broadcast_pairs (u v : list nat) : result (list (nat * nat)) :=
  if length u =? length v then Return (combine u v)
  else match u, v with
       | [i], _ => Return (map (fun j => (i, j)) v)
       | _, [j] => Return (map (fun i => (i, j)) u)
       | _, _ => Raise IndexError
       end.

(** [m[rows, cols]] *)
Definition index_pairs (m : matrix) (u v : list nat) : result (list F) :=
  ij <- broadcast_pairs u v ;;
  mapM (fun p => match nth_error m (fst p) with
                 | Some row => match nth_error row (snd p) with
                               | Some x => Return x
                               | None => Raise IndexError
                               end
                 | None => Raise IndexError
                 end) ij.

(** [np.all(u == v)] for two arrays of one length. *)
Definition all_equal (u v : list Z) : bool :=
  forallb (fun p => Z.eqb (fst p) (snd p)) (combine u v).

(** [np.any(np.all(resampled[:, None] == spinsamples[:, :n], 0))] *)
Definition seen_before (resampled : list Z) (spins : list (list Z)) (n : nat)
  : bool :=
  existsb (fun j => all_equal resampled (column 0%Z j spins)) (seq 0 n).

Section Loop.
(** The names bound before the loop over rotations. *)
Variable np_random : RandomState.
Variable coords_2d : bool.              (* coords.ndim == 2 *)
Variable n_coords : nat.                (* len(coords) *)
Variables coords_l coords_r : matrix.
Variables inds_l inds_r : list bool.
Variables check_duplicates exact : bool.

Definition inds : list Z := arange n_coords.

(** One pass through the body of the [while] loop up to the duplicate
    check: a rotation is drawn and turned into a resampling vector and
    its cost. *)
Definition candidate (seed : RandomState)
  : result (list Z * F * RandomState) :=
  let resampled := zeros 0%Z n_coords in
  (* generate left + right hemisphere rotations *)
  let '(left_, right_, seed) := _gen_rotation np_random (SeedInstance seed) in
  (* find mapping of rotated coords to original coords *)
  if negb coords_2d then Raise ScipyShapeError else
  '(lcol, rcol, ccost) <-
    (if exact then
       let dist_l := distance_matrix coords_l (matmul coords_l left_) in
       let dist_r := distance_matrix coords_r (matmul coords_r right_) in
       let '(lrow, lcol) := linear_sum_assignment dist_l in
       let '(rrow, rcol) := linear_sum_assignment dist_r in
       cl <- index_pairs dist_l lrow lcol ;;
       cr <- index_pairs dist_r rrow rcol ;;
       Return (lcol, rcol, f_add (f_sum cl) (f_sum cr))
     else
       let '(dist_l, lcol) := cKDTree_query (matmul coords_l left_) coords_l in
       let '(dist_r, rcol) := cKDTree_query (matmul coords_r right_) coords_r in
       Return (lcol, rcol, f_add (f_sum dist_l) (f_sum dist_r))) ;;
  (* generate resampling vector *)
  vl <- take (select inds_l inds) lcol ;;
  resampled <- mask_assign inds_l (map int32 vl) resampled ;;
  vr <- take (select inds_r inds) rcol ;;
  resampled <- mask_assign inds_r (map int32 vr) resampled ;;
  Return (resampled, ccost, seed).

(** The value of [duplicated] at the end of the body. *)
Definition is_duplicated (resampled : list Z) (spins : list (list Z))
  (n : nat) : bool :=
  if check_duplicates then
    if seen_before resampled spins n then true
    else if all_equal resampled inds then true
    else false
  else false.

(** [while duplicated and count < 500].  The loop is entered with
    [count = 0] and [duplicated = True], so its body runs at least once and
    the test is the one at the end of each pass.  [count] grows by one per
    pass, which leaves room for [max_attempts - 1] further passes after the
    first: that number is [budget]. *)
Fixpoint attempts_loop (budget count : nat) (spins : list (list Z))
  (n : nat) (seed : RandomState)
  : result (list Z * F * nat * RandomState) :=
  let count := count + 1 in
  '(resampled, ccost, seed) <- candidate seed ;;
  let duplicated := is_duplicated resampled spins n in
  match budget with
  | S budget' =>
      if duplicated && (count <? max_attempts)
      then attempts_loop budget' count spins n seed
      else Return (resampled, ccost, count, seed)
  | 0 => Return (resampled, ccost, count, seed)
  end.

(** The body of [for n in range(n_rotate)]. *)
Definition rotation (n : nat) (st : spin_state) : result spin_state :=
  (* try and avoid duplicates, if at all possible... *)
  '(resampled, ccost, count, seed) <-
    attempts_loop (max_attempts - 1) 0 (spinsamples st) n (rng st) ;;
  let warn := (count =? max_attempts) && negb (warned st) in
  Return {| spinsamples := set_column n resampled (spinsamples st);
            cost := set_nth n ccost (cost st);
            warned := if warn then true else warned st;
            warnings := if warn
                        then warnings st ++ [DuplicateRotationsWarning]
                        else warnings st;
            attempts := attempts st ++ [count];
            rng := seed |}.

Fixpoint rotations (ns : list nat) (st : spin_state) : result spin_state :=
  match ns with
  | [] => Return st
  | n :: ns' => st' <- rotation n st ;; rotations ns' st'
  end.

End Loop.

(** [gen_spinsamples].  The Python function returns the pair
    [(spinsamples, cost)] of the final state. *)
Definition gen_spinsamples (np_random : RandomState)
  (coords : ndarray F) (hemiid : ndarray Q) (n_rotate : nat)
  (check_duplicates exact : bool) (seed : seed_arg) : result spin_state :=
  let seed := check_random_state np_random seed in
  let hemiid := {| shape := shape hemiid;
                   data := map astype_int (data hemiid) |} in
  (* check supplied coordinate shape *)
  d <- last_dim coords ;;
  if negb (d =? 3) || negb (ndim (squeeze coords) =? 2)
  then Raise CoordsShapeError else
  (* ensure hemisphere designation array is correct *)
  let hemiid := squeeze hemiid in
  if negb (ndim hemiid =? 1) then Raise HemiidDimError else
  if negb (len coords =? len hemiid) then Raise LengthMismatchError else
  mx <- np_max (data hemiid) ;;
  if negb (mx =? 1)%Z then Raise HemiidDomainError else
  mn <- np_min (data hemiid) ;;
  if negb (mn =? 0)%Z then Raise HemiidDomainError else
  (* empty array to store resampling indices *)
  let spinsamples := zeros (zeros 0%Z n_rotate) (len coords) in
  let cost := zeros f_zero n_rotate in
  (* split coordinates into left / right hemispheres *)
  let inds_l := map (fun h => (h =? 0)%Z) (data hemiid) in
  let inds_r := map (fun h => (h =? 1)%Z) (data hemiid) in
  let coords_l := select inds_l (rows coords) in
  let coords_r := select inds_r (rows coords) in
  (* generate rotations and resampling array! *)
  rotations np_random (ndim coords =? 2) (len coords) coords_l coords_r
            inds_l inds_r check_duplicates exact
            (seq 0 n_rotate)
            {| spinsamples := spinsamples; cost := cost; warned := false;
               warnings := []; attempts := []; rng := seed |}.

End Spin.


(* ================================================================== *)
(** ** The permutation tests *)

(** numpy and scipy expressions of the permutation tests.  Each field
    stands for the expression quoted next to it. *)
Class StatRoutines `{Collaborators} : Type := {
  (** [a - b], with broadcasting *)
  np_subtract : ndarray F -> ndarray F -> result (ndarray F);
  (** [a * b], with broadcasting *)
  np_multiply : ndarray F -> ndarray F -> result (ndarray F);
  (** [a.mean(axis=axis)] *)
  np_mean : ndarray F -> nat -> result (ndarray F);
  (** [rs.choice([-1, 1], size=shape)] *)
  rs_choice_sign : RandomState -> list nat -> ndarray F * RandomState;
  (** [np.stack([a, b], axis=0)] *)
  np_stack : ndarray F -> ndarray F -> result (ndarray F);
  (** [np.squeeze(np.diff(ab, axis=0))] *)
  squeezed_diff : ndarray F -> result (ndarray F);
  (** [swap = rs.random_sample(ab.shape[:-1]).argsort(axis=axis)],
      [reidx[0] = np.repeat(swap[..., np.newaxis], ab.shape[-1], axis=-1)]
      and then [ab[tuple(reidx)]], where [reidx] is the identity
      [np.meshgrid] index of [ab] *)
  rs_swap_first_axis :
    RandomState -> ndarray F -> nat -> result (ndarray F) * RandomState;
  (** [rs.permutation(n)] *)
  rs_permutation : RandomState -> nat -> list Z * RandomState;
  (** [a[idx]] along the first axis, for an array [idx] of integers *)
  np_take : ndarray F -> list Z -> result (ndarray F);
  (** [resamples[:, j]] *)
  np_column : ndarray Z -> nat -> result (list Z);
  (** lines 465-472 of [efficient_pearsonr]: reshape, broadcast, z-score,
      sum, clip and squeeze *)
  zscore_correlation : ndarray F -> ndarray F -> result (ndarray F);
  (** lines 475-476 of [efficient_pearsonr]: the two-tailed probability of
      a correlation over [n] samples *)
  correlation_prob : nat -> ndarray F -> ndarray F;
}.

Section Permtest.
Context `{StatRoutines}.

(** What a test hands back: the pair [(np.nan, np.nan)], or the statistic
    with its p-values.  The counts behind the p-values are whole numbers
    kept in a float array; their quotient by [n_perm + 1] is taken here in
    the rationals. *)
Inductive outcome : Type :=
| Nan
| Computed (stat : ndarray F) (pvals : ndarray Q).

(** [a.size] *)
Definition size {A} (a : ndarray A) : nat := size_of (shape a).

(** [np.ravel] and [np.atleast_1d] *)
Definition ravel {A} (a : ndarray A) : ndarray A :=
  {| shape := [size a]; data := data a |}.

Definition atleast_1d {A} (a : ndarray A) : ndarray A :=
  if ndim a =? 0 then {| shape := [1]; data := data a |} else a.

(** [scipy.stats.stats._chk2_asarray] *)
Definition _chk2_asarray (a b : ndarray F) (axis : option nat)
  : ndarray F * ndarray F * nat :=
  let '(a, b, outaxis) :=
    match axis with
    | None => (ravel a, ravel b, 0)
    | Some axis => (a, b, axis)
    end in
  (atleast_1d a, atleast_1d b, outaxis).

(** [np.expand_dims(a, axis)] *)
Definition expand_dims {A} (a : ndarray A) (axis : nat)
  : result (ndarray A) :=
  if ndim a <? axis then Raise AxisError
  else Return {| shape := firstn axis (shape a) ++ 1 :: skipn axis (shape a);
                 data := data a |}.

(** [a.shape[axis]] *)
Definition shape_at {A} (a : ndarray A) (axis : nat) : result nat :=
  match nth_error (shape a) axis with
  | Some d => Return d
  | None => Raise TupleIndexError
  end.

(** [np.abs(x)] *)
Definition np_abs (x : ndarray F) : ndarray F :=
  {| shape := shape x; data := map f_abs (data x) |}.

(** [np.ones(shape)], as counts *)
Definition ones (s : list nat) : list Z := repeat 1%Z (size_of s).

(** [x >= y] on two floats *)
Definition f_geb (x y : F) : bool := f_leb y x.

(** Item [i] of [np.abs(null) >= abs_true].  The two statistics come from
    the same reduction of arrays of one shape, so they are compared item
    by item. *)
Definition exceeds (abs_true : list F) (null : list F) (i : nat) : bool :=
  f_geb (f_abs (nth i null f_zero)) (nth i abs_true f_zero).

(** [permutations += np.abs(null) >= abs_true] *)
Definition tally (permutations : list Z) (abs_true null : list F) : list Z :=
  map (fun i => (nth i permutations 0 + if exceeds abs_true null i
                                        then 1 else 0)%Z)
      (seq 0 (length permutations)).

(** [for perm in range(n_perm)], with the body of each test given as the
    function that draws one null statistic. *)
Fixpoint permutation_loop
  (null_statistic : nat -> RandomState -> result (ndarray F * RandomState))
  (abs_true : list F) (perms : list nat) (permutations : list Z)
  (rs : RandomState) : result (list Z * RandomState) :=
  match perms with
  | [] => Return (permutations, rs)
  | perm :: perms' =>
      '(null, rs) <- null_statistic perm rs ;;
      permutation_loop null_statistic abs_true perms'
                       (tally permutations abs_true (data null)) rs
  end.

(** [permutations / (n_perm + 1)] *)
Definition to_pvals (s : list nat) (permutations : list Z) (n_perm : nat)
  : ndarray Q :=
  {| shape := s;
     data := map (fun c => Qmake c (Pos.of_succ_nat n_perm)) permutations |}.

(** The loop and the quotient that end the three tests. *)
Definition assess
  (null_statistic : nat -> RandomState -> result (ndarray F * RandomState))
  (true_stat : ndarray F) (n_perm : nat) (rs : RandomState)
  : result outcome :=
  let abs_true := np_abs true_stat in
  let permutations := ones (shape true_stat) in
  '(permutations, _) <-
    permutation_loop null_statistic (data abs_true) (seq 0 n_perm)
                     permutations rs ;;
  let pvals := to_pvals (shape true_stat) permutations n_perm in
  Return (Computed true_stat pvals).

(** What a test has in hand when it enters its loop: how to draw a null
    statistic, the observed statistic and the random state; [None] when it
    has already returned [(np.nan, np.nan)]. *)
Definition prepared : Type :=
  option ((nat -> RandomState -> result (ndarray F * RandomState))
          * ndarray F * RandomState).

Definition finish (p : result prepared) (n_perm : nat) : result outcome :=
  p <- p ;;
  match p with
  | None => Return Nan
  | Some (null_statistic, true_stat, rs) =>
      assess null_statistic true_stat n_perm rs
  end.

(** The sign-flipped mean of [permtest_1samp]. *)
Definition flipped_mean (zeroed : ndarray F) (axis : nat)
  (perm : nat) (rs : RandomState) : result (ndarray F * RandomState) :=
  let '(signs, rs) := rs_choice_sign rs (shape zeroed) in
  flipped <- np_multiply zeroed signs ;;     (* sign flip *)
  m <- np_mean flipped axis ;;
  Return (m, rs).

(** [permtest_1samp] up to its loop. *)
Definition permtest_1samp_setup (np_random : RandomState)
  (a popmean : ndarray F) (axis : option nat) (seed : seed_arg)
  : result prepared :=
  let '(a, popmean, axis) := _chk2_asarray a popmean axis in
  let rs := check_random_state np_random seed in
  if size a =? 0 then Return None else
  (* ensure popmean will broadcast to `a` correctly *)
  popmean <- (if negb (ndim popmean =? ndim a)
              then expand_dims popmean axis else Return popmean) ;;
  (* center `a` around `popmean` and calculate original mean *)
  zeroed <- np_subtract a popmean ;;
  true_mean <- np_mean zeroed axis ;;
  Return (Some (flipped_mean zeroed axis, true_mean, rs)).

Definition permtest_1samp (np_random : RandomState)
  (a popmean : ndarray F) (axis : option nat) (n_perm : nat)
  (seed : seed_arg) : result outcome :=
  finish (permtest_1samp_setup np_random a popmean axis seed) n_perm.

(** The mean difference of [permtest_rel] after a random swap within the
    pairs. *)
Definition swapped_diff (ab : ndarray F) (axis : nat)
  (perm : nat) (rs : RandomState) : result (ndarray F * RandomState) :=
  (* use this to re-index (i.e., swap along) the first axis of `ab` *)
  let '(swapped, rs) := rs_swap_first_axis rs ab axis in
  swapped <- swapped ;;
  (* recompute difference between `a` and `b` (i.e., first axis of `ab`) *)
  d <- squeezed_diff swapped ;;
  pdiff <- np_mean d axis ;;
  Return (pdiff, rs).

(** [permtest_rel] up to its loop. *)
Definition permtest_rel_setup (np_random : RandomState)
  (a b : ndarray F) (axis : option nat) (seed : seed_arg)
  : result prepared :=
  let '(a, b, axis) := _chk2_asarray a b axis in
  let rs := check_random_state np_random seed in
  da <- shape_at a axis ;;
  db <- shape_at b axis ;;
  if negb (da =? db) then Raise ArrayLengthError else
  if (size a =? 0) || (size b =? 0) then Return None else
  (* calculate original difference in means *)
  ab <- np_stack a b ;;
  ab <- (if ndim ab <? 3 then expand_dims ab (ndim ab) else Return ab) ;;
  d <- squeezed_diff ab ;;
  true_diff <- np_mean d axis ;;
  Return (Some (swapped_diff ab axis, true_diff, rs)).

Definition permtest_rel (np_random : RandomState)
  (a b : ndarray F) (axis : option nat) (n_perm : nat)
  (seed : seed_arg) : result outcome :=
  finish (permtest_rel_setup np_random a b axis seed) n_perm.

(** [efficient_pearsonr]; [None] is the pair [(np.nan, np.nan)]. *)
Definition efficient_pearsonr (a b : ndarray F)
  : result (option (ndarray F * ndarray F)) :=
  let '(a, b, axis) := _chk2_asarray a b (Some 0) in
  if negb (len a =? len b) then Raise ArrayLengthError else
  if (size a =? 0) || (size b =? 0) then Return None else
  corr <- zscore_correlation a b ;;
  (* taken from scipy.stats *)
  let prob := correlation_prob (len a) corr in
  Return (Some (corr, prob)).

(** [efficient_pearsonr(a, b)[0]], as an array: the attributes the tests
    go on to use are missing from the float [np.nan]. *)
Definition correlation (a b : ndarray F) : result (ndarray F) :=
  r <- efficient_pearsonr a b ;;
  match r with
  | Some (corr, _) => Return corr
  | None => Raise AttributeError
  end.

(** The correlation of [permtest_pearsonr] after shuffling [a]. *)
Definition shuffled_correlation (a b : ndarray F)
  (resamples : option (ndarray Z))
  (perm : nat) (rs : RandomState) : result (ndarray F * RandomState) :=
  (* permute `a` and determine whether correlations exceed original *)
  match resamples with
  | None =>
      let '(idx, rs) := rs_permutation rs (len a) in
      ap <- np_take a idx ;;
      c <- correlation ap b ;;
      Return (c, rs)
  | Some resamples =>
      idx <- np_column resamples perm ;;
      ap <- np_take a idx ;;
      c <- correlation ap b ;;
      Return (c, rs)
  end.

(** [permtest_pearsonr] up to its loop. *)
Definition permtest_pearsonr_setup (np_random : RandomState)
  (a b : ndarray F) (axis : option nat) (n_perm : nat)
  (resamples : option (ndarray Z)) (seed : seed_arg) : result prepared :=
  let '(a, b, axis) := _chk2_asarray a b axis in
  let rs := check_random_state np_random seed in
  if negb (len a =? len b) then Raise ArrayLengthError else
  if (size a =? 0) || (size b =? 0) then Return None else
  _ <- match resamples with
       | None => Return tt
       | Some resamples =>
           d <- last_dim resamples ;;
           if d <? n_perm then Raise ResampleSizeError else Return tt
       end ;;
  (* divide by one forces coercion to float if ndim = 0 *)
  true_corr <- correlation a b ;;
  Return (Some (shuffled_correlation a b resamples, true_corr, rs)).

Definition permtest_pearsonr (np_random : RandomState)
  (a b : ndarray F) (axis : option nat) (n_perm : nat)
  (resamples : option (ndarray Z)) (seed : seed_arg) : result outcome :=
  finish (permtest_pearsonr_setup np_random a b axis n_perm resamples seed)
         n_perm.

(** The three tests, by their arguments other than [axis], [n_perm] and
    [seed]. *)
Inductive test : Type :=
| OneSample (a popmean : ndarray F)
| Related (a b : ndarray F)
| Pearson (a b : ndarray F) (resamples : option (ndarray Z)).

Definition setup (np_random : RandomState) (t : test) (axis : option nat)
  (n_perm : nat) (seed : seed_arg) : result prepared :=
  match t with
  | OneSample a popmean => permtest_1samp_setup np_random a popmean axis seed
  | Related a b => permtest_rel_setup np_random a b axis seed
  | Pearson a b resamples =>
      permtest_pearsonr_setup np_random a b axis n_perm resamples seed
  end.

Definition permtest (np_random : RandomState) (t : test) (axis : option nat)
  (n_perm : nat) (seed : seed_arg) : result outcome :=
  match t with
  | OneSample a popmean => permtest_1samp np_random a popmean axis n_perm seed
  | Related a b => permtest_rel np_random a b axis n_perm seed
  | Pearson a b resamples =>
      permtest_pearsonr np_random a b axis n_perm resamples seed
  end.

(** The null statistics a loop goes through, oldest first, up to the
    first that fails to compute. *)
Fixpoint null_statistics
  (null_statistic : nat -> RandomState -> result (ndarray F * RandomState))
  (perms : list nat) (rs : RandomState) : list (list F) :=
  match perms with
  | [] => []
  | perm :: perms' =>
      match null_statistic perm rs with
      | Return (null, rs) =>
          data null :: null_statistics null_statistic perms' rs
      | Raise _ => []
      end
  end.

(** The null statistics of a run of a test. *)
Definition null_distribution (np_random : RandomState) (t : test)
  (axis : option nat) (n_perm : nat) (seed : seed_arg) : list (list F) :=
  match setup np_random t axis n_perm seed with
  | Return (Some (null_statistic, _, rs)) =>
      null_statistics null_statistic (seq 0 n_perm) rs
  | _ => []
  end.

(** [counter], for item [i] of the statistic: how many null statistics
    are, in absolute value, at least the observed one. *)
Definition counter (abs_true : list F) (nulls : list (list F)) (i : nat)
  : nat :=
  length (filter (fun null => exceeds abs_true null i) nulls).

(** [(counter + 1) / (n_perm + 1)] *)
Definition smoothed (count n_perm : nat) : Q :=
  Qmake (Z.of_nat count + 1) (Pos.of_succ_nat n_perm).

End Permtest.


(* ================================================================== *)
(** ** What the external routines promise *)

Section Laws.
Context `{Collaborators}.

(** [0 <= x] on float64 *)
Definition nonneg (x : F) : Prop := f_leb f_zero x = true.

Definition square (m : matrix) : Prop :=
  Forall (fun row => length row = length m) m.

(** Sizes and index ranges of what scipy returns:
    - a nearest-neighbour query answers every query point with the index
      of a point of the tree;
    - a distance matrix has a row per point of [x] and a column per point
      of [y];
    - on a square cost matrix a linear sum assignment pairs every row, in
      order, with a column of its own. *)
Class IndexLaws : Prop := {
  kd_dist_length : forall tree x,
    length (fst (cKDTree_query tree x)) = length x;
  kd_index_length : forall tree x,
    length (snd (cKDTree_query tree x)) = length x;
  kd_index_range : forall tree x, tree <> [] ->
    Forall (fun j => j < length tree) (snd (cKDTree_query tree x));
  dm_rows : forall x y, length (distance_matrix x y) = length x;
  dm_cols : forall x y,
    Forall (fun row => length row = length y) (distance_matrix x y);
  lsa_rows : forall m, square m ->
    fst (linear_sum_assignment m) = seq 0 (length m);
  lsa_cols : forall m, square m ->
    Permutation (snd (linear_sum_assignment m)) (seq 0 (length m));
}.

(** Distances are not negative, and adding two floats that are not
    negative gives one that is not negative. *)
Class CostLaws : Prop := {
  zero_nonneg : nonneg f_zero;
  add_nonneg : forall a b, nonneg a -> nonneg b -> nonneg (f_add a b);
  kd_dist_nonneg : forall tree x,
    Forall nonneg (fst (cKDTree_query tree x));
  dm_nonneg : forall x y, Forall (Forall nonneg) (distance_matrix x y);
}.

(** The inputs the documentation of [gen_spinsamples] asks for: [coords]
    of shape (N, 3), [hemiid] with N labels (possibly with axes of length
    one around them), every label 0 or 1 once cast to integer, both
    present, and N within the range of the int32 output. *)
Definition valid_input (coords : ndarray F) (hemiid : ndarray Q) (N : nat)
  : Prop :=
  shape coords = [N; 3] /\
  squeeze_shape (shape hemiid) = [N] /\
  wf hemiid /\
  Forall (fun q => astype_int q = 0%Z \/ astype_int q = 1%Z) (data hemiid) /\
  Exists (fun q => astype_int q = 0%Z) (data hemiid) /\
  Exists (fun q => astype_int q = 1%Z) (data hemiid) /\
  (Z.of_nat N <= 2 ^ 31)%Z.

(** The integer labels the function works with. *)
Definition labels (hemiid : ndarray Q) : list Z :=
  map astype_int (data hemiid).

(** [hemiid == h] *)
Definition hemisphere (hemiid : ndarray Q) (h : Z) : list bool :=
  map (fun l => (l =? h)%Z) (labels hemiid).

(** What every accepted resampling vector satisfies on valid input. *)
Definition accepted (hemiid : ndarray Q) (N : nat) (exact : bool)
  (r : list Z) : Prop :=
  length r = N /\
  within (hemisphere hemiid 0) N r /\ within (hemisphere hemiid 1) N r /\
  (exact = true ->
   bijective_on (hemisphere hemiid 0) N r /\
   bijective_on (hemisphere hemiid 1) N r).

(** What holds of the state after [n] of [n_rotate] rotations over [N]
    points, when [Pr] holds of every accepted resampling and [Pc] of
    every cost. *)
Definition filled (N : nat) (Pr : list Z -> Prop) (Pc : F -> Prop)
  (n_rotate n : nat) (st : spin_state) : Prop :=
  length (spinsamples st) = N /\
  Forall (fun row => length row = n_rotate) (spinsamples st) /\
  length (cost st) = n_rotate /\
  Forall Pc (cost st) /\
  forall j, j < n -> Pr (column 0%Z j (spinsamples st)).

(** The warning discipline: at most one warning per run, issued by the
    first column whose [count] reached [max_attempts]. *)
Definition warning_discipline (st : spin_state) : Prop :=
  (warned st = false -> warnings st = [] /\
     Forall (fun k => k <> max_attempts) (attempts st)) /\
  (warned st = true -> warnings st = [DuplicateRotationsWarning] /\
     In max_attempts (attempts st)).

(** What the bookkeeping of a run amounts to after [n] rotations over
    [N] points: one count per column, each between 1 and [max_attempts],
    the warning discipline and, with duplicate checking, any column whose
    count stayed below [max_attempts] is neither the identity mapping nor
    equal to an earlier column. *)
Definition bookkeeping (N : nat) (check_duplicates : bool)
  (n_rotate n : nat) (st : spin_state) : Prop :=
  n <= n_rotate ->
  length (attempts st) = n /\
  length (spinsamples st) = N /\
  Forall (fun row => length row = n_rotate) (spinsamples st) /\
  warning_discipline st /\
  Forall (fun k => 1 <= k <= max_attempts) (attempts st) /\
  (check_duplicates = true ->
   forall j, j < n -> nth j (attempts st) 0 < max_attempts ->
     column 0%Z j (spinsamples st) <> arange N /\
     forall i, i < j ->
       column 0%Z i (spinsamples st) <> column 0%Z j (spinsamples st)).

End Laws.

(* ================================================================== *)
(** ** An exact-arithmetic instance of the external routines

    Integer coordinates, rotations that permute and flip the axes, and a
    random source that replays a prepared tape of draws.  Nearest
    neighbours and assignments are found by exhaustive search on squared
    Euclidean distances (an integer has no square root to offer; the
    nearest point is the same for both).  The instance is used to run the
    definitions above on concrete inputs. *)

Module Exact.

#[export] Instance ZFloat : Float64 := {|
  F := Z;
  f_zero := 0%Z;
  f_one := 1%Z;
  f_add := Z.add;
  f_mul := Z.mul;
  f_neg := Z.opp;
  f_abs := Z.abs;
  f_ltb := Z.ltb;
  f_leb := Z.leb;
|}.

Definition sqdist (p q : list Z) : Z :=
  fold_left Z.add (zip_with (fun a b => (a - b) * (a - b))%Z p q) 0%Z.

(** Index and value of the first least item of [l], starting from the
    candidate [(bi, bv)]; [i] is the index of the head of [l]. *)
Fixpoint argmin_from (bi : nat) (bv : Z) (i : nat) (l : list Z) : nat * Z :=
  match l with
  | [] => (bi, bv)
  | v :: t => if (v <? bv)%Z then argmin_from i v (S i) t
              else argmin_from bi bv (S i) t
  end.

Definition nearest (tree : list (list Z)) (x : list Z) : Z * nat :=
  match map (sqdist x) tree with
  | [] => (0%Z, 0)
  | v :: t => let '(i, d) := argmin_from 0 v 1 t in (d, i)
  end.

Definition query (tree x : list (list Z)) : list Z * list nat :=
  (map (fun p => fst (nearest tree p)) x, map (fun p => snd (nearest tree p)) x).

Definition dist_matrix (x y : list (list Z)) : list (list Z) :=
  map (fun p => map (sqdist p) y) x.

(** All the orderings of a list. *)
Fixpoint insert_everywhere {A} (a : A) (l : list A) : list (list A) :=
  match l with
  | [] => [[a]]
  | b :: t => (a :: l) :: map (cons b) (insert_everywhere a t)
  end.

Fixpoint orderings {A} (l : list A) : list (list A) :=
  match l with
  | [] => [[]]
  | a :: t => flat_map (insert_everywhere a) (orderings t)
  end.

Definition assignment_cost (m : list (list Z)) (cols : list nat) : Z :=
  fold_left Z.add
    (zip_with (fun row j => nth j row 0%Z) m cols) 0%Z.

(** The first cheapest of the candidates [l], starting from [best]. *)
Fixpoint cheapest (m : list (list Z)) (best : list nat) (l : list (list nat))
  : list nat :=
  match l with
  | [] => best
  | c :: t => if (assignment_cost m c <? assignment_cost m best)%Z
              then cheapest m c t else cheapest m best t
  end.

Definition assign (m : list (list Z)) : list nat * list nat :=
  let rows := seq 0 (length m) in
  (rows, cheapest m rows (orderings rows)).

Definition identity3 : list (list Z) :=
  [[1; 0; 0]; [0; 1; 0]; [0; 0; 1]]%Z.

(** The determinant of a 3 x 3 matrix, by the rule of Sarrus. *)
Definition det3 (m : list (list Z)) : Z :=
  let e (i j : nat) : Z := nth j (nth i m []) 0%Z in
  let a := e 0 0 in let b := e 0 1 in let c := e 0 2 in
  let d := e 1 0 in let f := e 1 1 in let g := e 1 2 in
  let h := e 2 0 in let k := e 2 1 in let l := e 2 2 in
  (a * (f * l - g * k) - b * (d * l - g * h) + c * (d * k - f * h))%Z.

(** The tape a seed stands for.  Seed 1 starts with the quarter turn
    about the y axis. *)
Definition quarter_turn_y : list (list Z) :=
  [[0; 0; -1]; [0; 1; 0]; [1; 0; 0]]%Z.

Definition tape_of_seed (seed : Z) : list (list (list Z)) :=
  if (seed =? 1)%Z then [quarter_turn_y] else [].

(** A draw takes the next matrix of the tape; a tape that has run out
    keeps giving the identity. *)
Definition draw (tape : list (list (list Z))) (r c : nat)
  : list (list Z) * list (list (list Z)) :=
  match tape with
  | [] => (identity3, [])
  | m :: t => (m, t)
  end.

(** The tapes hold orthogonal matrices, whose QR factors are the matrix
    itself and the identity. *)
#[export] Instance Scripted : Collaborators := {|
  RandomState := list (list (list Z));
  RandomState_of_seed := tape_of_seed;
  rs_normal := draw;
  linalg_qr := fun m => (m, identity3);
  linalg_det := det3;
  distance_matrix := dist_matrix;
  linear_sum_assignment := assign;
  cKDTree_query := query;
|}.

(** The coordinates and hemispheres of the docstring of
    [gen_spinsamples]. *)
Definition doc_coords : ndarray Z :=
  {| shape := [4; 3];
     data := [0; 0; 1;  1; 0; 0;  0; 0; 1;  1; 0; 0]%Z |}.

Definition doc_hemi : ndarray Q :=
  {| shape := [4]; data := [0#1; 0#1; 1#1; 1#1]%Q |}.

(** The half turn that swaps the x and z axes. *)
Definition swap_xz : list (list Z) :=
  [[0; 0; 1]; [0; -1; 0]; [1; 0; 0]]%Z.

(** Three points, two of them in the left hemisphere. *)
Definition three_coords : ndarray Z :=
  {| shape := [3; 3];
     data := [0; 0; 1;  1; 0; 0;  0; 0; 1]%Z |}.

Definition three_hemi : ndarray Q :=
  {| shape := [3]; data := [0#1; 0#1; 1#1]%Q |}.

(** Identity rotations for every attempt but the last one allowed. *)
Definition late_success_tape : list (list (list Z)) :=
  repeat identity3 (max_attempts - 1) ++ [swap_xz].

(** One point per hemisphere. *)
Definition two_coords : ndarray Z :=
  {| shape := [2; 3]; data := [0; 0; 1;  0; 0; 1]%Z |}.

Definition two_hemi : ndarray Q :=
  {| shape := [2]; data := [0#1; 1#1]%Q |}.

(** Labels that are not integers. *)
Definition fractional_hemi : ndarray Q :=
  {| shape := [2]; data := [5#10; 19#10]%Q |}.

(** One-dimensional stand-ins for the array expressions of the
    permutation tests.  A sum takes the place of a mean and a scalar
    product that of a correlation: integers cannot hold the quotients. *)
Definition elementwise (f : Z -> Z -> Z) (a b : ndarray Z)
  : result (ndarray Z) :=
  if length (data a) =? length (data b)
  then Return {| shape := shape a; data := zip_with f (data a) (data b) |}
  else match data b with
       | [y] => Return {| shape := shape a;
                          data := map (fun x => f x y) (data a) |}
       | _ => Raise BroadcastError
       end.

Definition total (a : ndarray Z) (axis : nat) : result (ndarray Z) :=
  if (ndim a =? 1) && (axis =? 0)
  then Return {| shape := []; data := [fold_left Z.add (data a) 0%Z] |}
  else Raise AxisError.

(** The signs of the next matrix of the tape, row after row; +1 once
    they run out. *)
Definition signs (tape : list (list (list Z))) (n : nat)
  : list Z * list (list (list Z)) :=
  match tape with
  | [] => (repeat 1%Z n, [])
  | m :: t =>
      (firstn n (map (fun z => if (z <? 0)%Z then (-1)%Z else 1%Z) (concat m)
                 ++ repeat 1%Z n), t)
  end.

Definition choice_sign (tape : list (list (list Z))) (s : list nat)
  : ndarray Z * list (list (list Z)) :=
  let '(sg, t) := signs tape (size_of s) in
  ({| shape := s; data := sg |}, t).

Definition stack (a b : ndarray Z) : result (ndarray Z) :=
  if length (data a) =? length (data b)
  then Return {| shape := 2 :: shape a; data := data a ++ data b |}
  else Raise BroadcastError.

Definition halves (ab : ndarray Z) : list Z * list Z :=
  let n := Nat.div2 (length (data ab)) in
  (firstn n (data ab), skipn n (data ab)).

Definition diff_of_halves (ab : ndarray Z) : result (ndarray Z) :=
  let '(a, b) := halves ab in
  Return {| shape := squeeze_shape (tl (shape ab));
            data := zip_with (fun x y => (y - x)%Z) a b |}.

(** A pair is swapped where the tape gives a negative sign. *)
Definition swap_pairs (tape : list (list (list Z))) (ab : ndarray Z)
  (axis : nat) : result (ndarray Z) * list (list (list Z)) :=
  let '(a, b) := halves ab in
  let '(sg, t) := signs tape (length a) in
  let pick (first : bool) (p : Z * (Z * Z)) : Z :=
    let '(s, (x, y)) := p in
    if Bool.eqb (s <? 0)%Z first then y else x in
  let pairs := combine sg (combine a b) in
  (Return {| shape := shape ab;
             data := map (pick true) pairs ++ map (pick false) pairs |}, t).

(** The identity ordering, reversed while the tape lasts. *)
Definition ordering (tape : list (list (list Z))) (n : nat)
  : list Z * list (list (list Z)) :=
  match tape with
  | [] => (arange n, [])
  | _ :: t => (rev (arange n), t)
  end.

Definition take1 (a : ndarray Z) (idx : list Z) : result (ndarray Z) :=
  d <- mapM (fun j => match nth_error (data a) (Z.to_nat j) with
                      | Some x => if (j <? 0)%Z then Raise IndexError
                                  else Return x
                      | None => Raise IndexError
                      end) idx ;;
  Return {| shape := [length idx]; data := d |}.

Definition column_of (m : ndarray Z) (j : nat) : result (list Z) :=
  mapM (fun row => match nth_error row j with
                   | Some x => Return x
                   | None => Raise IndexError
                   end) (rows m).

Definition scalar_product (a b : ndarray Z) : result (ndarray Z) :=
  Return {| shape := []; data := [dot (data a) (data b)] |}.

#[export] Instance ScriptedStats : StatRoutines := {|
  np_subtract := elementwise Z.sub;
  np_multiply := elementwise Z.mul;
  np_mean := total;
  rs_choice_sign := choice_sign;
  np_stack := stack;
  squeezed_diff := diff_of_halves;
  rs_swap_first_axis := swap_pairs;
  rs_permutation := ordering;
  np_take := take1;
  np_column := column_of;
  zscore_correlation := scalar_product;
  correlation_prob := fun n corr => {| shape := shape corr;
                                       data := map (fun _ => 0%Z) (data corr) |};
|}.

(** Three observations and a population mean of zero. *)
Definition sample : ndarray Z := {| shape := [3]; data := [3; 1; 2]%Z |}.
Definition paired : ndarray Z := {| shape := [3]; data := [1; 5; 2]%Z |}.
Definition zero_mean : ndarray Z := {| shape := []; data := [0%Z] |}.

End Exact.

(* ================================================================== *)
(** ** What LAPACK's determinant promises *)

Section DeterminantLaws.
Context `{Collaborators}.

(** Changing the sign of a column changes the sign of the determinant,
    and the opposite of a negative float is not negative. *)
Class DetLaws : Prop := {
  det_negate_column0 : forall m,
    linalg_det (negate_column0 m) = f_neg (linalg_det m);
  neg_negative : forall x,
    f_ltb x f_zero = true -> f_ltb (f_neg x) f_zero = false;
}.

End DeterminantLaws.

(* ================================================================== *)
(** ** netneurotools.utils *)

Module Utils.
Section Utils.
Context `{Float64}.

(** [np.triu_indices(n, k=1)]: the cells above the diagonal, row after
    row. *)
Definition triu_indices (n : nat) : list nat * list nat :=
  let cells :=
    flat_map (fun i => map (fun j => (i, j)) (seq (S i) (n - S i)))
             (seq 0 n) in
  (map fst cells, map snd cells).

(** [get_triu]; the argument [k] is accepted and the indices are those
    of [k=1]. *)
Definition get_triu (data : matrix) (k : Z) : result (list F) :=
  let '(rows_, cols_) := triu_indices (length data) in
  index_pairs data rows_ cols_.

(** [np.column_stack([data, np.ones(len(data))])] for an array of one or
    two dimensions; [None] when numpy raises (no length, or a number of
    dimensions that a column cannot be joined to). *)
Definition column_stack_ones (a : ndarray F) : option (ndarray F) :=
  match shape a with
  | [n] => Some {| shape := [n; 2];
                   data := flat_map (fun x => [x; f_one]) (data a) |}
  | [n; m] => Some {| shape := [n; S m];
                      data := concat (map (fun row => row ++ [f_one])
                                          (rows a)) |}
  | _ => None
  end.

(** [add_constant], with [check_array] standing for
    [sklearn.utils.check_array(data, ensure_2d=False)]. *)
Definition add_constant (check_array : ndarray F -> option (ndarray F))
  (a : ndarray F) : option (ndarray F) :=
  match check_array a with
  | Some a => column_stack_ones a
  | None => None
  end.

(** [X[:, :-1]] on an array of two dimensions, as [residualize] uses it
    to remove the intercept. *)
Definition drop_last_column (a : ndarray F) : ndarray F :=
  {| shape := match shape a with
              | [n; m] => [n; m - 1]
              | s => s
              end;
     data := concat (map (@removelast F) (rows a)) |}.

End Utils.
End Utils.

(* ================================================================== *)
(** ** netneurotools.datasets.fetchers *)

Module Fetchers.
Import String.
Local Open Scope string_scope.

(** The options handed to [_fetch_files] with every file. *)
Record opts : Type := {
  uncompress : bool;
  md5sum : string;
  move : string;
}.

(** [info['url']] and [info['md5']] of an entry of the dataset list. *)
Record info : Type := { url : string; md5 : string }.

(** What a key of the returned Bunch holds: a path, a list of paths, or
    the content of a JSON file. *)
Inductive value (J : Type) : Type :=
| File (path : string)
| Files (paths : list string)
| Content (json : J).
Arguments File {J} path.
Arguments Files {J} paths.
Arguments Content {J} json.

(** A dict in insertion order. *)
Definition dict (V : Type) : Type := list (string * V).

Fixpoint dict_set {V} (d : dict V) (k : string) (v : V) : dict V :=
  match d with
  | [] => [(k, v)]
  | (k', v') :: d' =>
      if String.eqb k' k then (k', v) :: d' else (k', v') :: dict_set d' k v
  end.

Fixpoint dict_get {V} (d : dict V) (k : string) : option V :=
  match d with
  | [] => None
  | (k', v') :: d' => if String.eqb k' k then Some v' else dict_get d' k
  end.

(** [dict(zip(keys, data))] *)
Definition dict_zip {V} (keys : list string) (data : list V) : dict V :=
  fold_left (fun d kv => dict_set d (fst kv) (snd kv)) (combine keys data) [].

(** [l[i:j]], [l[::2]] and [s[-n:]], [s[n:]] for indices within range. *)
Definition slice {A} (l : list A) (i j : nat) : list A :=
  firstn (j - i) (skipn i l).

Fixpoint every_other {A} (l : list A) : list A :=
  match l with
  | [] => []
  | x :: t => x :: match t with
                   | [] => []
                   | _ :: t' => every_other t'
                   end
  end.

Definition str_last (n : nat) (s : string) : string :=
  substring (String.length s - n) n s.

Definition str_from (n : nat) (s : string) : string :=
  substring n (String.length s - n) s.

(** [range(0, stop, 2)] *)
Definition range_by_two (stop : nat) : list nat :=
  map (fun i => 2 * i) (seq 0 (Nat.div2 (S stop))).

(** [os.path.join(a, b)] for a relative [b] and an [a] without a final
    separator. *)
Definition path_join (a b : string) : string := a ++ "/" ++ b.

Section Fetch.
(** The parsed content of a JSON file. *)
Variable J : Type.
(** [_get_data_dir(data_dir=data_dir)], [nilearn]'s [_fetch_files] and
    [json.load] of an opened file. *)
Variable _get_data_dir : option string -> string.
Variable _fetch_files :
  string -> list (string * string * opts) -> list string.
Variable json_load : string -> J.

Definition pairs_of {A} (data : list A) (stop : nat) : list (list A) :=
  map (fun i => slice data i (i + 2)) (range_by_two stop).

(** [fetch_cammoun2012]; [info] is [_get_dataset_info(dataset_name)]
    read at [version], and [None] is the ValueError of an unknown
    version. *)
Definition fetch_cammoun2012 (info_of : string -> info)
  (version : string) (data_dir : option string) (url_ : option string)
  : option (dict (value J)) :=
  let versions := ["volume"; "surface"; "gcs"] in
  if negb (existsb (String.eqb version) versions) then None else
  let dataset_name := "atl-cammoun2012" in
  let keys := ["scale033"; "scale060"; "scale125"; "scale250"; "scale500"] in
  let data_dir := _get_data_dir data_dir in
  let info := info_of version in
  let url_ := match url_ with None => url info | Some u => u end in
  let opts := {| uncompress := true; md5sum := md5 info;
                 move := "tmp.tar.gz" |} in
  (* filenames differ based on selected version of dataset *)
  let filenames :=
    if String.eqb version "volume" then
      app (flat_map (fun res =>
             map (fun suff =>
               "atl-Cammoun2012_space-MNI152NLin2009aSym_res-"
               ++ str_last 3 res ++ "_deterministic" ++ suff)
               [".nii.gz"]) keys)
          ["atl-Cammoun2012_space-MNI152NLin2009aSym_info.csv"]
    else if String.eqb version "surface" then
      flat_map (fun res =>
        flat_map (fun hemi =>
          map (fun suff =>
            "atl-Cammoun2012_space-fsaverage_res-" ++ str_last 3 res
            ++ "_hemi-" ++ hemi ++ "_deterministic" ++ suff) [".annot"])
          ["L"; "R"]) keys
    else
      flat_map (fun res =>
        flat_map (fun hemi =>
          map (fun suff =>
            "atl-Cammoun2012_res-" ++ str_from 5 res
            ++ "_hemi-" ++ hemi ++ "_probabilistic" ++ suff)
            [".gcs"; ".ctab"])
          ["L"; "R"])
        (app (removelast keys) ["scale500v1"; "scale500v2"; "scale500v3"]) in
  let files :=
    map (fun f => (path_join dataset_name f, url_, opts)) filenames in
  let data := _fetch_files data_dir files in
  if String.eqb version "volume" then
    Some (dict_zip (app keys ["info"]) (map File data))
  else if String.eqb version "surface" then
    let data := pairs_of data (List.length data) in
    Some (dict_zip keys (map Files data))
  else
    let data := pairs_of (every_other data) (Nat.div2 (List.length data)) in
    (* deal with the fact that last scale is split into three files *)
    let data := app (firstn (List.length data - 3) data)
                    [List.concat (skipn (List.length data - 3) data)] in
    Some (dict_zip keys (map Files data)).

(** [fetch_conte69]; [info] is [_get_dataset_info('tpl-conte69')], and
    [None] is the IndexError of [data[-1]] on an empty list. *)
Definition fetch_conte69 (info : info) (data_dir : option string)
  (url_ : option string) : option (dict (value J)) :=
  let dataset_name := "tpl-conte69" in
  let keys := ["midthickness"; "inflated"; "vinflated"] in
  let data_dir := _get_data_dir data_dir in
  let url_ := match url_ with None => url info | Some u => u end in
  let opts := {| uncompress := true; md5sum := md5 info;
                 move := dataset_name ++ ".tar.gz" |} in
  let filenames :=
    app (flat_map (fun res =>
           map (fun hemi =>
             "tpl-conte69/tpl-conte69_space-MNI305_variant-fsLR32k_" ++ res
             ++ "." ++ hemi ++ ".surf.gii") ["L"; "R"]) keys)
        ["tpl-conte69/template_description.json"] in
  let data := _fetch_files data_dir
                (map (fun f => (f, url_, opts)) filenames) in
  match data with
  | [] => None
  | _ =>
      let last_ := json_load (List.last data "") in
      (* bundle hemispheres together *)
      let bundled := map (fun i => Files (slice (removelast data) i (i + 2)))
                         (range_by_two 6) in
      Some (dict_zip (app keys ["info"]) (app bundled [Content last_]))
  end.

(** [fetch_fsaverage]; [info] is [_get_dataset_info('tpl-fsaverage')]. *)
Definition fetch_fsaverage (info : info) (data_dir : option string)
  (url_ : option string) : dict (value J) :=
  let dataset_name := "tpl-fsaverage" in
  let keys := ["orig"; "white"; "smoothwm"; "pial"; "inflated"; "sphere"] in
  let data_dir := _get_data_dir data_dir in
  let url_ := match url_ with None => url info | Some u => u end in
  let opts := {| uncompress := true; md5sum := md5 info;
                 move := dataset_name ++ ".tar.gz" |} in
  let filenames :=
    flat_map (fun surf =>
      map (fun hemi => "fsaverage/surf/" ++ hemi ++ "." ++ surf)
          ["lh"; "rh"]) keys in
  let data := _fetch_files data_dir
                (map (fun f => (f, url_, opts)) filenames) in
  let data := pairs_of data (List.length keys * 2) in
  dict_zip keys (map Files data).

(** What [_fetch_files] promises: the local path of every requested
    file, in the order of the request. *)
Definition fetches_in_order (local_path : string -> string -> string)
  : Prop :=
  forall data_dir files,
    _fetch_files data_dir files
    = map (fun f => local_path data_dir (fst (fst f))) files.

End Fetch.

(** A stand-in for the download: every file is found under the data
    directory. *)
Definition fetch_locally (data_dir : string)
  (files : list (string * string * opts)) : list string :=
  map (fun f => path_join data_dir (fst (fst f))) files.

Definition some_info : info :=
  {| url := "https://example.org/archive.tar.gz"; md5 := "0" |}.

End Fetchers.

(* ================================================================== *)
(** * Properties *)

Unset Implicit Arguments.

(** ** Arrays and masks *)

Section ArrayFacts.
Context {A : Type}.

Lemma bind_return_inv {X Y} (m : result X) (k : X -> result Y) (y : Y) :
  Py.bind m k = Return y -> exists x, m = Return x /\ k x = Return y.
Proof.
  destruct m as [x|e]; simpl; intros Hk.
  - exists x. split; [reflexivity | exact Hk].
  - discriminate.
Qed.

Lemma take_in_range (l : list A) (idx : list nat) (d : A) :
  Forall (fun j => j < length l) idx ->
  take l idx = Return (map (fun j => nth j l d) idx).
Proof.
  unfold take. induction 1 as [|j idx Hj _ IH]; simpl.
  - reflexivity.
  - destruct (nth_error l j) as [x|] eqn:E.
    + simpl. rewrite IH. simpl.
      rewrite (nth_error_nth _ _ d E). reflexivity.
    + apply nth_error_None in E. lia.
Qed.

Lemma select_nil_r (mask : list bool) : select mask (@nil A) = [].
Proof. destruct mask; reflexivity. Qed.

Lemma select_length (mask : list bool) (l : list A) :
  length mask = length l -> length (select mask l) = count_true mask.
Proof.
  unfold count_true. revert l.
  induction mask as [|b m IH]; intros [|x t] Hlen; simpl in *;
    try discriminate; try reflexivity.
  injection Hlen as Hlen.
  destruct b; simpl; rewrite (IH t Hlen); reflexivity.
Qed.

Lemma mask_fill_length (mask : list bool) (vals arr : list A) :
  length (mask_fill mask vals arr) = length arr.
Proof.
  revert vals arr.
  induction mask as [|b m IH]; intros vals [|x t]; simpl; try reflexivity.
  - destruct b; reflexivity.
  - destruct b; [destruct vals|]; simpl; rewrite IH; reflexivity.
Qed.

Lemma select_mask_fill (mask : list bool) (vals arr : list A) :
  length mask = length arr -> length vals = count_true mask ->
  select mask (mask_fill mask vals arr) = vals.
Proof.
  unfold count_true. revert vals arr.
  induction mask as [|b m IH]; intros vals [|x t] Hlen Hv; simpl in *;
    try discriminate.
  - destruct vals; [reflexivity | discriminate].
  - destruct b; simpl in *.
    + destruct vals as [|v vs]; [discriminate|].
      simpl in *. f_equal. apply IH; lia.
    + apply IH; lia.
Qed.

Lemma select_mask_fill_other (m1 m2 : list bool) (vals arr : list A) :
  disjoint m1 m2 ->
  select m1 (mask_fill m2 vals arr) = select m1 arr.
Proof.
  intros Hd. revert vals arr.
  induction Hd as [|a b m1 m2 Hab _ IH]; intros vals arr.
  - reflexivity.
  - destruct arr as [|x t]; [destruct b; reflexivity|].
    destruct b; simpl.
    + rewrite andb_true_r in Hab. subst a.
      destruct vals; simpl; apply IH.
    + destruct a; simpl; rewrite IH; reflexivity.
Qed.

Lemma select_Forall_nth (P : A -> Prop) (mask : list bool) (l : list A)
  (d : A) (i : nat) :
  Forall P (select mask l) -> nth i mask false = true -> i < length l ->
  P (nth i l d).
Proof.
  revert l i.
  induction mask as [|b m IH]; intros [|x t] i HF Hm Hi; simpl in *;
    try lia.
  - destruct i; discriminate.
  - destruct i as [|i].
    + subst b. inversion HF; assumption.
    + apply IH; [destruct b; [inversion HF|]; assumption | assumption | lia].
Qed.

Lemma In_select (mask : list bool) (l : list A) (x : A) :
  In x (select mask l) -> In x l.
Proof.
  revert l. induction mask as [|b m IH]; intros [|y t] Hin; simpl in *;
    try contradiction.
  destruct b; [destruct Hin as [->|Hin]|]; auto.
Qed.

Lemma select_NoDup (mask : list bool) (l : list A) :
  NoDup l -> NoDup (select mask l).
Proof.
  revert l. induction mask as [|b m IH]; intros [|y t] Hnd; simpl;
    try constructor.
  inversion Hnd as [|? ? Hnotin Hnd']; subst.
  destruct b; [constructor|]; auto.
  intros Hin. apply Hnotin. eapply In_select; eassumption.
Qed.

Lemma map_nth_seq (l : list A) (d : A) :
  map (fun j => nth j l d) (seq 0 (length l)) = l.
Proof.
  induction l as [|x t IH]; simpl; [reflexivity|].
  f_equal. rewrite <- seq_shift, map_map. exact IH.
Qed.

Lemma set_nth_length (j : nat) (v : A) (l : list A) :
  length (set_nth j v l) = length l.
Proof.
  revert j. induction l as [|x t IH]; intros [|j]; simpl; auto.
Qed.

Lemma nth_set_nth_same (j : nat) (v d : A) (l : list A) :
  j < length l -> nth j (set_nth j v l) d = v.
Proof.
  revert j. induction l as [|x t IH]; intros [|j] Hj; simpl in *;
    try lia; auto.
  apply IH. lia.
Qed.

Lemma nth_set_nth_other (j k : nat) (v d : A) (l : list A) :
  k <> j -> nth k (set_nth j v l) d = nth k l d.
Proof.
  revert j k. induction l as [|x t IH]; intros [|j] [|k] Hne; simpl;
    try reflexivity; try lia.
  apply IH. lia.
Qed.

Lemma set_column_length (j : nat) (v : list A) (m : list (list A)) :
  length (set_column j v m) = length m.
Proof.
  revert v. induction m as [|row m IH]; intros [|x v]; simpl; auto.
Qed.

Lemma set_column_row_lengths (j n : nat) (v : list A) (m : list (list A)) :
  Forall (fun row => length row = n) m ->
  Forall (fun row => length row = n) (set_column j v m).
Proof.
  intros Hm. revert v.
  induction Hm as [|row m Hrow Hm IH]; intros [|x v]; simpl.
  - constructor.
  - constructor.
  - constructor; assumption.
  - constructor; [rewrite set_nth_length; exact Hrow | apply IH].
Qed.

Lemma column_set_column_same (d : A) (j n : nat) (v : list A)
  (m : list (list A)) :
  length v = length m -> Forall (fun row => length row = n) m -> j < n ->
  column d j (set_column j v m) = v.
Proof.
  intros Hlen Hm Hj. revert v Hlen.
  induction Hm as [|row m Hrow _ IH]; intros [|x v] Hlen; simpl in *;
    try discriminate; try reflexivity.
  rewrite nth_set_nth_same by lia. f_equal. apply IH. lia.
Qed.

Lemma column_set_column_other (d : A) (j k : nat) (v : list A)
  (m : list (list A)) :
  k <> j -> column d k (set_column j v m) = column d k m.
Proof.
  intros Hne. revert v.
  induction m as [|row m IH]; intros [|x v]; simpl; try reflexivity.
  rewrite nth_set_nth_other by assumption. f_equal. apply IH.
Qed.

Lemma column_length (d : A) (j : nat) (m : list (list A)) :
  length (column d j m) = length m.
Proof. apply length_map. Qed.

Lemma nth_column (d : A) (j i : nat) (m : list (list A)) :
  i < length m -> nth i (column d j m) d = nth j (nth i m []) d.
Proof.
  intros Hi. unfold column.
  rewrite (nth_indep _ d (nth j [] d)) by (rewrite length_map; exact Hi).
  rewrite (map_nth (fun row => nth j row d)). reflexivity.
Qed.

End ArrayFacts.

Lemma int32_small (x : Z) : (0 <= x < 2 ^ 31)%Z -> int32 x = x.
Proof.
  intros Hx. unfold int32.
  rewrite Z.mod_small by lia. lia.
Qed.

Lemma In_arange (x : Z) (n : nat) :
  In x (arange n) <-> (0 <= x < Z.of_nat n)%Z.
Proof.
  unfold arange. rewrite in_map_iff. split.
  - intros (i & <- & Hi). apply in_seq in Hi. lia.
  - intros Hx. exists (Z.to_nat x). split; [lia|].
    apply in_seq. lia.
Qed.

Lemma arange_length (n : nat) : length (arange n) = n.
Proof. unfold arange. rewrite length_map, length_seq. reflexivity. Qed.

Lemma arange_NoDup (n : nat) : NoDup (arange n).
Proof.
  unfold arange. apply Finite.Injective_map_NoDup.
  - intros a b. apply Nat2Z.inj.
  - apply seq_NoDup.
Qed.

Lemma nth_arange (n i : nat) :
  i < n -> nth i (arange n) 0%Z = Z.of_nat i.
Proof.
  intros Hi. unfold arange.
  rewrite (nth_indep _ 0%Z (Z.of_nat 0)) by (rewrite length_map, length_seq; lia).
  rewrite map_nth, seq_nth by lia. reflexivity.
Qed.

Lemma mask_assign_fits {A} (mask : list bool) (vals arr : list A) :
  length mask = length arr -> length vals = count_true mask ->
  mask_assign mask vals arr = Return (mask_fill mask vals arr).
Proof.
  intros Hm Hv. unfold mask_assign.
  rewrite Hm, Nat.eqb_refl. simpl.
  rewrite Hv, Nat.eqb_refl. reflexivity.
Qed.

(** The cells a mask selects in [np.arange(n)] are the positions where it
    is set. *)
Lemma In_select_arange (mask : list bool) (n : nat) (x : Z) :
  length mask = n ->
  (In x (select mask (arange n)) <->
   (0 <= x < Z.of_nat n)%Z /\ nth (Z.to_nat x) mask false = true).
Proof.
  intros Hlen. unfold arange.
  assert (G : forall (m : list bool) (a : nat),
             In x (select m (map Z.of_nat (seq a (length m)))) <->
             (Z.of_nat a <= x < Z.of_nat (a + length m))%Z /\
             nth (Z.to_nat x - a) m false = true).
  { induction m as [|b m IH]; intros a; simpl.
    - split; [contradiction | lia].
    - specialize (IH (S a)).
      destruct b; simpl; rewrite IH; clear IH.
      + split.
        * intros [<-|[Hr Hn]].
          -- split; [lia|]. rewrite Nat2Z.id, Nat.sub_diag. reflexivity.
          -- split; [lia|].
             replace (Z.to_nat x - a) with (S (Z.to_nat x - S a)) by lia.
             exact Hn.
        * intros [Hr Hn].
          destruct (Z.eq_dec (Z.of_nat a) x) as [E|E]; [left; exact E|].
          right. split; [lia|].
          replace (Z.to_nat x - a) with (S (Z.to_nat x - S a)) in Hn by lia.
          exact Hn.
      + split.
        * intros [Hr Hn]. split; [lia|].
          replace (Z.to_nat x - a) with (S (Z.to_nat x - S a)) by lia.
          exact Hn.
        * intros [Hr Hn].
          destruct (Z.eq_dec (Z.of_nat a) x) as [E|E].
          -- subst x. rewrite Nat2Z.id, Nat.sub_diag in Hn. discriminate.
          -- split; [lia|].
             replace (Z.to_nat x - a) with (S (Z.to_nat x - S a)) in Hn
               by lia.
             exact Hn. }
  subst n. specialize (G mask 0).
  rewrite Nat.sub_0_r in G. simpl in G. exact G.
Qed.

Section CostFacts.
Context `{Collaborators} {CL : CostLaws}.

Lemma fold_add_nonneg (l : list F) (acc : F) :
  nonneg acc -> Forall nonneg l -> nonneg (fold_left f_add l acc).
Proof.
  intros Hacc Hl. revert acc Hacc.
  induction Hl as [|x l Hx _ IH]; intros acc Hacc; simpl.
  - exact Hacc.
  - apply IH. apply add_nonneg; assumption.
Qed.

Lemma f_sum_nonneg (l : list F) : Forall nonneg l -> nonneg (f_sum l).
Proof. apply fold_add_nonneg, zero_nonneg. Qed.

End CostFacts.

Section IndexFacts.
Context `{Collaborators}.

Lemma mapM_entries {X Y} (f : X -> result Y) (P : Y -> Prop) (l : list X)
  (ys : list Y) :
  (forall x y, In x l -> f x = Return y -> P y) ->
  mapM f l = Return ys -> Forall P ys.
Proof.
  revert ys. induction l as [|x t IH]; intros ys Hf Hm; simpl in Hm.
  - injection Hm as <-. constructor.
  - apply bind_return_inv in Hm as (y & Hy & Hm).
    apply bind_return_inv in Hm as (ys' & Hys & Hm).
    injection Hm as <-. constructor.
    + apply (Hf x y); [left; reflexivity | exact Hy].
    + apply IH; [|exact Hys].
      intros x' y' Hin. apply Hf. right. exact Hin.
Qed.

(** Whatever [m[rows, cols]] returns is made of entries of [m]. *)
Lemma index_pairs_entries (m : matrix) (u v : list nat) (cl : list F) :
  index_pairs m u v = Return cl ->
  Forall (fun x => exists row, In row m /\ In x row) cl.
Proof.
  unfold index_pairs. intros Hm.
  apply bind_return_inv in Hm as (ij & _ & Hm).
  revert Hm. apply mapM_entries.
  intros [i j] y _. simpl.
  destruct (nth_error m i) as [row|] eqn:Ei; [|discriminate].
  destruct (nth_error row j) as [x|] eqn:Ej; [|discriminate].
  intros E. injection E as <-.
  exists row. split; eapply nth_error_In; eassumption.
Qed.

Lemma mapM_total {X Y} (f : X -> result Y) (l : list X) :
  (forall x, In x l -> exists y, f x = Return y) ->
  exists ys, mapM f l = Return ys.
Proof.
  induction l as [|x t IH]; intros Hf; simpl.
  - eexists. reflexivity.
  - destruct (Hf x (or_introl eq_refl)) as (y & ->). simpl.
    destruct IH as (ys & ->).
    + intros x' Hin. apply Hf. right. exact Hin.
    + simpl. eexists. reflexivity.
Qed.

(** Indexing a square matrix by rows and columns in range succeeds. *)
Lemma index_pairs_in_range (m : matrix) (u v : list nat) :
  square m -> length u = length v ->
  Forall (fun i => i < length m) u -> Forall (fun j => j < length m) v ->
  exists cl, index_pairs m u v = Return cl.
Proof.
  intros Hsq Hlen Hu Hv. unfold index_pairs, broadcast_pairs.
  rewrite Hlen, Nat.eqb_refl. simpl.
  apply mapM_total. intros [i j] Hin. simpl.
  pose proof (in_combine_l _ _ _ _ Hin) as Hi.
  pose proof (in_combine_r _ _ _ _ Hin) as Hj.
  rewrite Forall_forall in Hu, Hv.
  apply Hu in Hi. apply Hv in Hj.
  destruct (nth_error m i) as [row|] eqn:Ei.
  - assert (Hrow : length row = length m).
    { unfold square in Hsq. rewrite Forall_forall in Hsq.
      apply Hsq. eapply nth_error_In. eassumption. }
    destruct (nth_error row j) as [x|] eqn:Ej.
    + eexists. reflexivity.
    + apply nth_error_None in Ej. lia.
  - apply nth_error_None in Ei. lia.
Qed.

Lemma matmul_length (a b : matrix) : length (matmul a b) = length a.
Proof. unfold matmul. apply length_map. Qed.

End IndexFacts.

(** ** One candidate resampling *)

Lemma donors_of_indices (mask : list bool) (n : nat) (idx : list nat) :
  length mask = n -> (Z.of_nat n <= 2 ^ 31)%Z ->
  Forall (fun j => j < count_true mask) idx ->
  let vals := map (fun j => nth j (select mask (arange n)) 0%Z) idx in
  map int32 vals = vals /\
  Forall (fun x => In x (select mask (arange n))) vals.
Proof.
  intros Hlen Hn Hidx vals.
  assert (Hin : Forall (fun x => In x (select mask (arange n))) vals).
  { unfold vals. apply Forall_map.
    eapply Forall_impl; [|exact Hidx]. intros j Hj. simpl in *.
    apply nth_In. rewrite select_length; [exact Hj|].
    rewrite arange_length. exact Hlen. }
  split; [|exact Hin].
  rewrite <- (map_id vals) at 2. apply map_ext_in.
  intros x Hx. rewrite Forall_forall in Hin.
  apply Hin, In_select, In_arange in Hx.
  apply int32_small. lia.
Qed.

Section CandidateFacts.
Context `{Collaborators} {IL : IndexLaws}.
Variable np_random : RandomState.
Variable N : nat.
Variables coords_l coords_r : matrix.
Variables m_l m_r : list bool.
Variable exact : bool.
Hypothesis N_int32 : (Z.of_nat N <= 2 ^ 31)%Z.
Hypothesis m_l_length : length m_l = N.
Hypothesis m_r_length : length m_r = N.
Hypothesis masks_disjoint : disjoint m_l m_r.
Hypothesis coords_l_length : length coords_l = count_true m_l.
Hypothesis coords_r_length : length coords_r = count_true m_r.
Hypothesis coords_l_nonempty : coords_l <> [].
Hypothesis coords_r_nonempty : coords_r <> [].

(** Row and column indices returned by the assignment of one hemisphere. *)
Lemma assignment_indices (coords rot : matrix) :
  let dist := distance_matrix coords (matmul coords rot) in
  square dist /\
  fst (linear_sum_assignment dist) = seq 0 (length coords) /\
  Permutation (snd (linear_sum_assignment dist)) (seq 0 (length coords)).
Proof.
  intros dist.
  assert (Hsq : square dist).
  { unfold square, dist. rewrite dm_rows.
    eapply Forall_impl; [|apply dm_cols].
    intros row Hrow. simpl in Hrow. rewrite Hrow. apply matmul_length. }
  split; [exact Hsq|].
  pose proof (@lsa_rows _ _ _ _ Hsq) as Hr.
  pose proof (@lsa_cols _ _ _ _ Hsq) as Hc.
  unfold dist in Hr, Hc at 2. rewrite dm_rows in Hr, Hc.
  split; assumption.
Qed.

Lemma perm_seq_range (l : list nat) (n : nat) :
  Permutation l (seq 0 n) -> length l = n /\ Forall (fun j => j < n) l.
Proof.
  intros Hp. split.
  - rewrite (Permutation_length Hp). apply length_seq.
  - apply Forall_forall. intros j Hj.
    apply (Permutation_in _ Hp), in_seq in Hj. lia.
Qed.

(** Both solvers answer with one donor position per point of the
    hemisphere, in range; the exact one with a rearrangement. *)
Lemma solve_indices (rl rr : matrix) :
  exists lcol rcol ccost,
    (if exact then
       let '(lrow, lcol) :=
         linear_sum_assignment
           (distance_matrix coords_l (matmul coords_l rl)) in
       let '(rrow, rcol) :=
         linear_sum_assignment
           (distance_matrix coords_r (matmul coords_r rr)) in
       cl <- index_pairs (distance_matrix coords_l (matmul coords_l rl))
                         lrow lcol ;;
       cr <- index_pairs (distance_matrix coords_r (matmul coords_r rr))
                         rrow rcol ;;
       Return (lcol, rcol, f_add (f_sum cl) (f_sum cr))
     else
       let '(dist_l, lcol) := cKDTree_query (matmul coords_l rl) coords_l in
       let '(dist_r, rcol) := cKDTree_query (matmul coords_r rr) coords_r in
       Return (lcol, rcol, f_add (f_sum dist_l) (f_sum dist_r)))
    = Return (lcol, rcol, ccost) /\
    length lcol = count_true m_l /\ length rcol = count_true m_r /\
    Forall (fun j => j < count_true m_l) lcol /\
    Forall (fun j => j < count_true m_r) rcol /\
    (exact = true ->
     Permutation lcol (seq 0 (count_true m_l)) /\
     Permutation rcol (seq 0 (count_true m_r))).
Proof.
  destruct exact.
  - destruct (assignment_indices coords_l rl) as (Hsql & Hlr & Hlc).
    destruct (assignment_indices coords_r rr) as (Hsqr & Hrr & Hrc).
    destruct (linear_sum_assignment
                (distance_matrix coords_l (matmul coords_l rl)))
      as [lrow lcol].
    destruct (linear_sum_assignment
                (distance_matrix coords_r (matmul coords_r rr)))
      as [rrow rcol].
    simpl in Hlr, Hlc, Hrr, Hrc. subst lrow rrow.
    rewrite coords_l_length in Hlc |- *.
    rewrite coords_r_length in Hrc |- *.
    destruct (perm_seq_range _ _ Hlc) as (Hll & Hlf).
    destruct (perm_seq_range _ _ Hrc) as (Hrl & Hrf).
    destruct (index_pairs_in_range
                (distance_matrix coords_l (matmul coords_l rl))
                (seq 0 (count_true m_l)) lcol) as (cl & ->).
    { exact Hsql. }
    { rewrite length_seq. symmetry. exact Hll. }
    { rewrite dm_rows, coords_l_length. apply Forall_forall.
      intros i Hi. apply in_seq in Hi. lia. }
    { rewrite dm_rows, coords_l_length. exact Hlf. }
    destruct (index_pairs_in_range
                (distance_matrix coords_r (matmul coords_r rr))
                (seq 0 (count_true m_r)) rcol) as (cr & ->).
    { exact Hsqr. }
    { rewrite length_seq. symmetry. exact Hrl. }
    { rewrite dm_rows, coords_r_length. apply Forall_forall.
      intros i Hi. apply in_seq in Hi. lia. }
    { rewrite dm_rows, coords_r_length. exact Hrf. }
    simpl. exists lcol, rcol, (f_add (f_sum cl) (f_sum cr)).
    repeat split; assumption.
  - pose proof (@kd_index_length _ _ _ (matmul coords_l rl) coords_l) as Hll.
    pose proof (@kd_index_length _ _ _ (matmul coords_r rr) coords_r) as Hrl.
    pose proof (@kd_index_range _ _ _ (matmul coords_l rl) coords_l) as Hlf.
    pose proof (@kd_index_range _ _ _ (matmul coords_r rr) coords_r) as Hrf.
    rewrite matmul_length in Hlf, Hrf.
    destruct (cKDTree_query (matmul coords_l rl) coords_l) as [dl lcol].
    destruct (cKDTree_query (matmul coords_r rr) coords_r) as [dr rcol].
    simpl in *. exists lcol, rcol, (f_add (f_sum dl) (f_sum dr)).
    rewrite <- coords_l_length, <- coords_r_length.
    split; [reflexivity|]. split; [exact Hll|]. split; [exact Hrl|].
    split; [|split; [|discriminate]].
    + apply Hlf. intros E. apply coords_l_nonempty.
      apply length_zero_iff_nil. rewrite <- (matmul_length coords_l rl), E.
      reflexivity.
    + apply Hrf. intros E. apply coords_r_nonempty.
      apply length_zero_iff_nil. rewrite <- (matmul_length coords_r rr), E.
      reflexivity.
Qed.

(** A candidate is always produced; it has one donor per point, keeps
    every donor inside the hemisphere of the point it serves and, in exact
    mode, rearranges each hemisphere. *)
Lemma candidate_returns (seed : RandomState) :
  exists resampled ccost seed',
    candidate np_random true N coords_l coords_r m_l m_r exact seed
    = Return (resampled, ccost, seed') /\
    length resampled = N /\
    within m_l N resampled /\ within m_r N resampled /\
    (exact = true ->
     bijective_on m_l N resampled /\ bijective_on m_r N resampled).
Proof.
  unfold candidate.
  destruct (_gen_rotation np_random (SeedInstance seed)) as [[rl rr] seed'].
  cbn [negb]. cbv iota.
  destruct (solve_indices rl rr)
    as (lcol & rcol & ccost & -> & Hll & Hrl & Hlf & Hrf & Hex).
  cbn [negb Py.bind].
  destruct (donors_of_indices _ _ _ m_l_length N_int32 Hlf) as (Hl32 & Hlin).
  destruct (donors_of_indices _ _ _ m_r_length N_int32 Hrf) as (Hr32 & Hrin).
  unfold inds.
  rewrite (take_in_range (select m_l (arange N)) lcol 0%Z)
    by (rewrite select_length by (rewrite arange_length; assumption);
        exact Hlf).
  cbn [Py.bind]. rewrite Hl32.
  rewrite mask_assign_fits; cycle 1.
  { unfold zeros. rewrite repeat_length. exact m_l_length. }
  { rewrite length_map. exact Hll. }
  cbn [Py.bind].
  rewrite (take_in_range (select m_r (arange N)) rcol 0%Z)
    by (rewrite select_length by (rewrite arange_length; assumption);
        exact Hrf).
  cbn [Py.bind]. rewrite Hr32.
  rewrite mask_assign_fits; cycle 1.
  { rewrite mask_fill_length. unfold zeros. rewrite repeat_length.
    exact m_r_length. }
  { rewrite length_map. exact Hrl. }
  cbn [Py.bind].
  do 3 eexists. split; [reflexivity|].
  assert (Hsl : select m_l
                  (mask_fill m_r
                     (map (fun j => nth j (select m_r (arange N)) 0%Z) rcol)
                     (mask_fill m_l
                        (map (fun j => nth j (select m_l (arange N)) 0%Z) lcol)
                        (zeros 0%Z N)))
                = map (fun j => nth j (select m_l (arange N)) 0%Z) lcol).
  { rewrite select_mask_fill_other by exact masks_disjoint.
    apply select_mask_fill.
    - unfold zeros. rewrite repeat_length. exact m_l_length.
    - rewrite length_map. exact Hll. }
  assert (Hsr : select m_r
                  (mask_fill m_r
                     (map (fun j => nth j (select m_r (arange N)) 0%Z) rcol)
                     (mask_fill m_l
                        (map (fun j => nth j (select m_l (arange N)) 0%Z) lcol)
                        (zeros 0%Z N)))
                = map (fun j => nth j (select m_r (arange N)) 0%Z) rcol).
  { apply select_mask_fill.
    - rewrite mask_fill_length. unfold zeros. rewrite repeat_length.
      exact m_r_length.
    - rewrite length_map. exact Hrl. }
  unfold within, bijective_on. rewrite Hsl, Hsr.
  split; [|split; [exact Hlin | split; [exact Hrin|]]].
  - rewrite !mask_fill_length. unfold zeros. apply repeat_length.
  - intros E. destruct (Hex E) as (Hpl & Hpr). split.
    + eapply Permutation_trans; [apply Permutation_map; exact Hpl|].
      rewrite <- (select_length m_l (arange N))
        by (rewrite arange_length; assumption).
      rewrite map_nth_seq. apply Permutation_refl.
    + eapply Permutation_trans; [apply Permutation_map; exact Hpr|].
      rewrite <- (select_length m_r (arange N))
        by (rewrite arange_length; assumption).
      rewrite map_nth_seq. apply Permutation_refl.
Qed.

End CandidateFacts.

(** ** The retry loop and the loop over rotations *)

Lemma set_nth_Forall {A} (P : A -> Prop) (j : nat) (v : A) (l : list A) :
  P v -> Forall P l -> Forall P (set_nth j v l).
Proof.
  intros Hv Hl. revert j.
  induction Hl as [|x l Hx Hl IH]; intros [|j]; simpl; constructor; auto.
Qed.

Section LoopFacts.
Context `{Collaborators}.
Variable np_random : RandomState.
Variable coords_2d : bool.
Variable N : nat.
Variables coords_l coords_r : matrix.
Variables m_l m_r : list bool.
Variables check_duplicates exact : bool.

Local Abbreviation candidate' :=
  (candidate np_random coords_2d N coords_l coords_r m_l m_r exact).
Local Abbreviation attempts_loop' :=
  (attempts_loop np_random coords_2d N coords_l coords_r m_l m_r
                 check_duplicates exact).
Local Abbreviation rotation' :=
  (rotation np_random coords_2d N coords_l coords_r m_l m_r
            check_duplicates exact).
Local Abbreviation rotations' :=
  (rotations np_random coords_2d N coords_l coords_r m_l m_r
             check_duplicates exact).

(** The budget stands for the test [count < max_attempts]: started as in
    [rotation], a pass of the loop is followed by another exactly when the
    candidate is a duplicate and [count] is below [max_attempts]. *)
Lemma attempts_loop_unfold (budget count : nat) (spins : list (list Z))
  (n : nat) (seed : RandomState) :
  count + budget = max_attempts - 1 ->
  attempts_loop' budget count spins n seed =
  ('(resampled, ccost, seed') <- candidate' seed ;;
   if is_duplicated N check_duplicates resampled spins n
      && (count + 1 <? max_attempts)
   then attempts_loop' (budget - 1) (count + 1) spins n seed'
   else Return (resampled, ccost, count + 1, seed')).
Proof.
  intros Hb. destruct budget as [|b]; simpl.
  - destruct (candidate' seed) as [[[r c] s]|e]; simpl; [|reflexivity].
    replace (count + 1 <? max_attempts) with false.
    + rewrite andb_false_r. reflexivity.
    + symmetry. apply Nat.ltb_ge. unfold max_attempts in *. lia.
  - rewrite Nat.sub_0_r. reflexivity.
Qed.

(** The number of passes is between 1 and what the budget allows, and the
    loop only goes on after a duplicate. *)
Lemma attempts_loop_count (budget count : nat) (spins : list (list Z))
  (n : nat) (seed seed' : RandomState) (r : list Z) (c : F) (k : nat) :
  attempts_loop' budget count spins n seed = Return (r, c, k, seed') ->
  count < k <= count + 1 + budget /\
  (check_duplicates = false -> k = count + 1).
Proof.
  revert count seed. induction budget as [|b IH]; intros count seed; simpl.
  - intros Hr. apply bind_return_inv in Hr as ([[r0 c0] s0] & _ & Hr).
    injection Hr as <- <- <- <-. lia.
  - intros Hr. apply bind_return_inv in Hr as ([[r0 c0] s0] & _ & Hr).
    destruct (is_duplicated N check_duplicates r0 spins n) eqn:Ed;
      cbn [andb] in Hr.
    + destruct (count + 1 <? max_attempts).
      * apply IH in Hr as (Hk & Hcd). split; [lia|].
        intros E. subst check_duplicates. discriminate.
      * injection Hr as <- <- <- <-. split; [lia | reflexivity].
    + injection Hr as <- <- <- <-. split; [lia | reflexivity].
Qed.

Section Totality.
(** A property of every candidate is a property of every accepted one. *)
Variable Pr : list Z -> Prop.
Variable Pc : F -> Prop.
Hypothesis candidate_good : forall seed, exists r c seed',
  candidate' seed = Return (r, c, seed') /\ Pr r /\ Pc c.

Lemma attempts_loop_returns (budget count : nat) (spins : list (list Z))
  (n : nat) (seed : RandomState) :
  exists r c k seed',
    attempts_loop' budget count spins n seed = Return (r, c, k, seed') /\
    Pr r /\ Pc c.
Proof.
  revert count seed. induction budget as [|b IH]; intros count seed; simpl;
    destruct (candidate_good seed) as (r & c & s & -> & Hr & Hc); simpl.
  - exists r, c, (count + 1), s. auto.
  - destruct (is_duplicated N check_duplicates r spins n
              && (count + 1 <? max_attempts)).
    + apply IH.
    + exists r, c, (count + 1), s. auto.
Qed.

Hypothesis Pr_length : forall r, Pr r -> length r = N.

Lemma rotation_fills (n_rotate n : nat) (st : spin_state) :
  n < n_rotate -> filled N Pr Pc n_rotate n st ->
  exists st', rotation' n st = Return st' /\ filled N Pr Pc n_rotate (S n) st'.
Proof.
  intros Hn (Hlen & Hrows & Hcost & Hpc & Hcols). unfold rotation.
  destruct (attempts_loop_returns (max_attempts - 1) 0 (spinsamples st) n
                                  (rng st))
    as (r & c & k & s & -> & Hr & Hc).
  cbn [Py.bind]. eexists. split; [reflexivity|].
  unfold filled. cbn [spinsamples cost].
  split; [rewrite set_column_length; exact Hlen|].
  split; [apply set_column_row_lengths; exact Hrows|].
  split; [rewrite set_nth_length; exact Hcost|].
  split; [apply set_nth_Forall; assumption|].
  intros j Hj. destruct (Nat.eq_dec j n) as [->|Hne].
  - rewrite (column_set_column_same 0%Z n n_rotate);
      [exact Hr | rewrite Hlen; apply Pr_length; exact Hr | exact Hrows
       | exact Hn].
  - rewrite column_set_column_other by exact Hne. apply Hcols. lia.
Qed.

Lemma rotations_fill (n_rotate k a : nat) (st : spin_state) :
  a + k <= n_rotate -> filled N Pr Pc n_rotate a st ->
  exists st',
    rotations' (seq a k) st = Return st' /\ filled N Pr Pc n_rotate (a + k) st'.
Proof.
  revert a st. induction k as [|k IH]; intros a st Hk Hf; simpl.
  - exists st. rewrite Nat.add_0_r. auto.
  - destruct (rotation_fills n_rotate a st) as (st1 & -> & Hf1);
      [lia | exact Hf |].
    cbn [Py.bind].
    destruct (IH (S a) st1) as (st2 & -> & Hf2); [lia | exact Hf1 |].
    exists st2. split; [reflexivity|].
    replace (a + S k) with (S a + k) by lia. exact Hf2.
Qed.

End Totality.

(** What is known of a state that a run did reach. *)
Lemma rotations_invariant (I : nat -> spin_state -> Prop) :
  (forall n st st', I n st -> rotation' n st = Return st' -> I (S n) st') ->
  forall k a st st',
    I a st -> rotations' (seq a k) st = Return st' -> I (a + k) st'.
Proof.
  intros Hstep. induction k as [|k IH]; intros a st st' Ha Hr; simpl in Hr.
  - injection Hr as <-. rewrite Nat.add_0_r. exact Ha.
  - apply bind_return_inv in Hr as (st1 & H1 & Hr).
    replace (a + S k) with (S a + k) by lia.
    eapply IH; [|exact Hr]. eapply Hstep; eassumption.
Qed.

Lemma rotation_warning_discipline (n : nat) (st st' : spin_state) :
  warning_discipline st -> rotation' n st = Return st' ->
  warning_discipline st'.
Proof.
  intros (Hf & Ht) Hr. unfold rotation in Hr.
  apply bind_return_inv in Hr as ([[[r c] k] s] & _ & Hr).
  injection Hr as <-. unfold warning_discipline. cbn.
  destruct (warned st) eqn:Ew.
  - rewrite andb_false_r.
    destruct (Ht eq_refl) as (Hw & Hin).
    split; [discriminate|]. intros _. split; [exact Hw|].
    apply in_or_app. left. exact Hin.
  - rewrite andb_true_r.
    destruct (Hf eq_refl) as (Hw & Hall).
    destruct (k =? max_attempts) eqn:Ek.
    + apply Nat.eqb_eq in Ek. subst k.
      split; [discriminate|]. intros _. rewrite Hw. split; [reflexivity|].
      apply in_or_app. right. left. reflexivity.
    + apply Nat.eqb_neq in Ek.
      split; [|discriminate]. intros _. split; [exact Hw|].
      apply Forall_app. split; [exact Hall|]. constructor; auto.
Qed.

End LoopFacts.

(** ** Validation *)

Lemma size_of_squeeze (s : list nat) : size_of (squeeze_shape s) = size_of s.
Proof.
  induction s as [|d s IH]; simpl; [reflexivity|].
  destruct (d =? 1) eqn:E; simpl.
  - apply Nat.eqb_eq in E. subst d. rewrite IH. lia.
  - rewrite IH. reflexivity.
Qed.

Lemma chunks_length {A} (k n : nat) (l : list A) :
  length (chunks k n l) = n.
Proof.
  revert l. induction n as [|n IH]; intros l; simpl; auto.
Qed.

Lemma fold_max_spec (t : list Z) (x : Z) :
  In (fold_left Z.max t x) (x :: t) /\
  Forall (fun y => (y <= fold_left Z.max t x)%Z) (x :: t).
Proof.
  revert x. induction t as [|y t IH]; intros x; simpl.
  - split; [left; reflexivity | constructor; [lia | constructor]].
  - destruct (IH (Z.max x y)) as (Hin & Hall).
    inversion Hall as [|? ? Hm Ht]; subst. split.
    + destruct Hin as [E|Hin]; [|right; right; exact Hin].
      rewrite <- E. destruct (Z.max_spec x y) as [[_ ->]|[_ ->]]; auto.
    + constructor; [lia|]. constructor; [lia | exact Ht].
Qed.

Lemma fold_min_spec (t : list Z) (x : Z) :
  In (fold_left Z.min t x) (x :: t) /\
  Forall (fun y => (fold_left Z.min t x <= y)%Z) (x :: t).
Proof.
  revert x. induction t as [|y t IH]; intros x; simpl.
  - split; [left; reflexivity | constructor; [lia | constructor]].
  - destruct (IH (Z.min x y)) as (Hin & Hall).
    inversion Hall as [|? ? Hm Ht]; subst. split.
    + destruct Hin as [E|Hin]; [|right; right; exact Hin].
      rewrite <- E. destruct (Z.min_spec x y) as [[_ ->]|[_ ->]]; auto.
    + constructor; [lia|]. constructor; [lia | exact Ht].
Qed.

(** [np.max] is 1 exactly on non-empty arrays that reach 1 and do not
    exceed it; likewise [np.min] and 0. *)
Lemma np_max_is (l : list Z) (m : Z) :
  np_max l = Return m <-> In m l /\ Forall (fun y => (y <= m)%Z) l.
Proof.
  destruct l as [|x t]; simpl.
  - split; [discriminate | intros ([] & _)].
  - pose proof (fold_max_spec t x) as (Hin & Hall). split.
    + intros E. injection E as <-. auto.
    + intros (Hm & Hle). f_equal. rewrite Forall_forall in Hall, Hle.
      apply Z.le_antisymm; [apply Hle; exact Hin | apply Hall; exact Hm].
Qed.

Lemma np_min_is (l : list Z) (m : Z) :
  np_min l = Return m <-> In m l /\ Forall (fun y => (m <= y)%Z) l.
Proof.
  destruct l as [|x t]; simpl.
  - split; [discriminate | intros ([] & _)].
  - pose proof (fold_min_spec t x) as (Hin & Hall). split.
    + intros E. injection E as <-. auto.
    + intros (Hm & Hle). f_equal. rewrite Forall_forall in Hall, Hle.
      apply Z.le_antisymm; [apply Hall; exact Hm | apply Hle; exact Hin].
Qed.

Lemma count_true_pos (f : Z -> bool) (l : list Z) :
  Exists (fun x => f x = true) l -> count_true (map f l) <> 0.
Proof.
  unfold count_true. induction 1 as [x l Hx|x l _ IH]; simpl.
  - rewrite Hx. simpl. lia.
  - destruct (f x); simpl; [lia | exact IH].
Qed.

Lemma nth_label_mask (h : Z) (labs : list Z) (k : nat) :
  nth k (map (fun l => (l =? h)%Z) labs) false = true <->
  k < length labs /\ nth k labs 0%Z = h.
Proof.
  revert k. induction labs as [|l labs IH]; intros [|k]; simpl.
  - split; [discriminate | lia].
  - split; [discriminate | lia].
  - rewrite Z.eqb_eq. split; [intros ->; split; [lia | reflexivity]
                              | intros (_ & E); exact E].
  - rewrite IH. split; intros (Hk & E); (split; [lia | exact E]).
Qed.

Lemma label_masks_disjoint (labs : list Z) :
  disjoint (map (fun l => (l =? 0)%Z) labs) (map (fun l => (l =? 1)%Z) labs).
Proof.
  unfold disjoint. induction labs as [|l labs IH]; simpl; constructor.
  - destruct (Z.eqb_spec l 0); [subst l; reflexivity | reflexivity].
  - exact IH.
Qed.

Section ValidFacts.
Context `{Collaborators}.
Variables (coords : ndarray F) (hemiid : ndarray Q) (N : nat).
Hypothesis valid : valid_input coords hemiid N.

Lemma valid_labels_length : length (labels hemiid) = N.
Proof.
  destruct valid as (_ & Hh & Hwf & _). unfold labels.
  rewrite length_map. unfold wf in Hwf. rewrite Hwf.
  rewrite <- size_of_squeeze, Hh. simpl. lia.
Qed.

Lemma valid_labels_binary :
  Forall (fun l => l = 0%Z \/ l = 1%Z) (labels hemiid).
Proof.
  destruct valid as (_ & _ & _ & Hb & _). unfold labels.
  apply Forall_map. exact Hb.
Qed.

Lemma valid_has_label (h : Z) :
  h = 0%Z \/ h = 1%Z ->
  Exists (fun l => (l =? h)%Z = true) (labels hemiid).
Proof.
  destruct valid as (_ & _ & _ & _ & H0' & H1' & _). unfold labels.
  intros [->| ->]; apply Exists_map.
  - eapply Exists_impl; [|exact H0']. intros q Hq. simpl in *.
    rewrite Hq. reflexivity.
  - eapply Exists_impl; [|exact H1']. intros q Hq. simpl in *.
    rewrite Hq. reflexivity.
Qed.

Lemma valid_at_least_two : 2 <= N.
Proof.
  rewrite <- valid_labels_length.
  pose proof (valid_has_label 0%Z (or_introl eq_refl)) as E0.
  pose proof (valid_has_label 1%Z (or_intror eq_refl)) as E1.
  destruct (labels hemiid) as [|a [|b t]]; simpl.
  - inversion E0.
  - inversion E0 as [? ? Ha|? ? Ha]; [|inversion Ha].
    inversion E1 as [? ? Hb|? ? Hb]; [|inversion Hb]. subst.
    apply Z.eqb_eq in Ha, Hb. lia.
  - lia.
Qed.

(** On valid input the checks pass and the function is its loop. *)
Lemma gen_spinsamples_valid (np_random : RandomState) (n_rotate : nat)
  (check_duplicates exact : bool) (seed : seed_arg) :
  gen_spinsamples np_random coords hemiid n_rotate check_duplicates exact seed
  = rotations np_random true N
      (select (hemisphere hemiid 0) (rows coords))
      (select (hemisphere hemiid 1) (rows coords))
      (hemisphere hemiid 0) (hemisphere hemiid 1)
      check_duplicates exact (seq 0 n_rotate)
      {| spinsamples := zeros (zeros 0%Z n_rotate) N;
         cost := zeros f_zero n_rotate;
         warned := false; warnings := []; attempts := [];
         rng := check_random_state np_random seed |}.
Proof.
  pose proof valid_at_least_two as H2.
  pose proof valid_labels_binary as Hb.
  pose proof (valid_has_label 0%Z (or_introl eq_refl)) as E0.
  pose proof (valid_has_label 1%Z (or_intror eq_refl)) as E1.
  destruct valid as (Hc & Hh & _).
  unfold gen_spinsamples, last_dim, squeeze, ndim, len. cbn [shape data].
  rewrite Hc, Hh. cbn [rev app Py.bind hd length squeeze_shape filter].
  replace (N =? 1) with false by (symmetry; apply Nat.eqb_neq; lia).
  cbn [negb Nat.eqb orb length]. rewrite Nat.eqb_refl. cbn [negb].
  fold (labels hemiid).
  assert (Hmax : np_max (labels hemiid) = Return 1%Z).
  { apply np_max_is. split.
    - apply Exists_exists in E1 as (l & Hin & El).
      apply Z.eqb_eq in El. subst l. exact Hin.
    - eapply Forall_impl; [|exact Hb]. simpl. intros l [->| ->]; lia. }
  assert (Hmin : np_min (labels hemiid) = Return 0%Z).
  { apply np_min_is. split.
    - apply Exists_exists in E0 as (l & Hin & El).
      apply Z.eqb_eq in El. subst l. exact Hin.
    - eapply Forall_impl; [|exact Hb]. simpl. intros l [->| ->]; lia. }
  rewrite Hmax. cbn [Py.bind Z.eqb Pos.eqb negb].
  rewrite Hmin. cbn [Py.bind Z.eqb negb].
  reflexivity.
Qed.

End ValidFacts.

(** ** Costs *)

Section CandidateCost.
Context `{Collaborators} {CL : CostLaws}.

Lemma entries_nonneg (x y : matrix) (cl : list F) :
  Forall (fun v => exists row, In row (distance_matrix x y) /\ In v row) cl ->
  Forall nonneg cl.
Proof.
  intros Hcl. eapply Forall_impl; [|exact Hcl].
  intros v (row & Hrow & Hv). simpl.
  pose proof (@dm_nonneg _ _ _ x y) as Hnn.
  rewrite Forall_forall in Hnn. specialize (Hnn row Hrow).
  rewrite Forall_forall in Hnn. apply Hnn. exact Hv.
Qed.

(** The cost of a candidate is a sum of distances. *)
Lemma candidate_cost_nonneg (np_random : RandomState) (coords_2d : bool)
  (N : nat) (coords_l coords_r : matrix) (m_l m_r : list bool)
  (exact : bool) (seed seed' : RandomState) (r : list Z) (c : F) :
  candidate np_random coords_2d N coords_l coords_r m_l m_r exact seed
  = Return (r, c, seed') ->
  nonneg c.
Proof.
  unfold candidate.
  destruct (_gen_rotation np_random (SeedInstance seed)) as [[rl rr] s1].
  destruct (negb coords_2d); [discriminate|].
  intros Hr. apply bind_return_inv in Hr as ([[lcol rcol] ccost] & Hs & Hr).
  assert (Hc : nonneg ccost).
  { destruct exact.
    - destruct (linear_sum_assignment
                  (distance_matrix coords_l (matmul coords_l rl)))
        as [lrow lcol'].
      destruct (linear_sum_assignment
                  (distance_matrix coords_r (matmul coords_r rr)))
        as [rrow rcol'].
      apply bind_return_inv in Hs as (cl & Hcl & Hs).
      apply bind_return_inv in Hs as (cr & Hcr & Hs).
      injection Hs as _ _ <-.
      apply add_nonneg; apply f_sum_nonneg;
        eapply entries_nonneg, index_pairs_entries; eassumption.
    - pose proof (@kd_dist_nonneg _ _ _ (matmul coords_l rl) coords_l) as Hl.
      pose proof (@kd_dist_nonneg _ _ _ (matmul coords_r rr) coords_r) as Hrr.
      destruct (cKDTree_query (matmul coords_l rl) coords_l) as [dl lcol'].
      destruct (cKDTree_query (matmul coords_r rr) coords_r) as [dr rcol'].
      injection Hs as _ _ <-.
      apply add_nonneg; apply f_sum_nonneg; assumption. }
  apply bind_return_inv in Hr as (vl & _ & Hr).
  apply bind_return_inv in Hr as (r1 & _ & Hr).
  apply bind_return_inv in Hr as (vr & _ & Hr).
  apply bind_return_inv in Hr as (r2 & _ & Hr).
  injection Hr as _ <- _. exact Hc.
Qed.

End CandidateCost.

(** ** The whole run on valid input *)

Section RunFacts.
Context `{Collaborators} {IL : IndexLaws}.
Variables (coords : ndarray F) (hemiid : ndarray Q) (N : nat).
Hypothesis valid : valid_input coords hemiid N.
Variable np_random : RandomState.
Variables check_duplicates exact : bool.

Local Abbreviation accepted' := (accepted hemiid N exact).

Lemma run_candidate (Pc : F -> Prop) :
  (forall seed seed' r c,
     candidate np_random true N
       (select (hemisphere hemiid 0) (rows coords))
       (select (hemisphere hemiid 1) (rows coords))
       (hemisphere hemiid 0) (hemisphere hemiid 1) exact seed
     = Return (r, c, seed') -> Pc c) ->
  forall seed, exists r c seed',
    candidate np_random true N
      (select (hemisphere hemiid 0) (rows coords))
      (select (hemisphere hemiid 1) (rows coords))
      (hemisphere hemiid 0) (hemisphere hemiid 1) exact seed
    = Return (r, c, seed') /\ accepted' r /\ Pc c.
Proof.
  intros Hcost seed.
  pose proof (valid_labels_length _ _ _ valid) as Hlen.
  assert (Hm : forall h, length (hemisphere hemiid h) = N).
  { intros h. unfold hemisphere. rewrite length_map. exact Hlen. }
  assert (Hrows : length (rows coords) = N).
  { unfold rows. rewrite chunks_length.
    destruct valid as (Hc & _). unfold len. rewrite Hc. reflexivity. }
  assert (Hne : forall h, h = 0%Z \/ h = 1%Z ->
                  select (hemisphere hemiid h) (rows coords) <> []).
  { intros h Hh E. apply (f_equal (@length _)) in E.
    rewrite select_length in E by (rewrite Hm, Hrows; reflexivity).
    revert E. apply (count_true_pos (fun l => (l =? h)%Z)).
    apply (valid_has_label _ _ _ valid). exact Hh. }
  destruct (candidate_returns np_random N
              (select (hemisphere hemiid 0) (rows coords))
              (select (hemisphere hemiid 1) (rows coords))
              (hemisphere hemiid 0) (hemisphere hemiid 1) exact)
    with (seed := seed)
    as (r & c & s & Hr & Hl & Hwl & Hwr & Hex).
  - destruct valid as (_ & _ & _ & _ & _ & _ & Hn). exact Hn.
  - apply Hm.
  - apply Hm.
  - apply label_masks_disjoint.
  - apply select_length. rewrite Hm, Hrows. reflexivity.
  - apply select_length. rewrite Hm, Hrows. reflexivity.
  - apply Hne. left. reflexivity.
  - apply Hne. right. reflexivity.
  - exists r, c, s. split; [exact Hr|]. split.
    + unfold accepted. auto.
    + eapply Hcost. exact Hr.
Qed.

(** A run on valid input returns, with every column accepted and every
    cost as the candidates' costs are. *)
Lemma run_returns (Pc : F -> Prop) (n_rotate : nat) (seed : seed_arg) :
  Pc f_zero ->
  (forall seed seed' r c,
     candidate np_random true N
       (select (hemisphere hemiid 0) (rows coords))
       (select (hemisphere hemiid 1) (rows coords))
       (hemisphere hemiid 0) (hemisphere hemiid 1) exact seed
     = Return (r, c, seed') -> Pc c) ->
  exists st,
    gen_spinsamples np_random coords hemiid n_rotate check_duplicates exact
                    seed = Return st /\
    filled N accepted' Pc n_rotate n_rotate st.
Proof.
  intros Hz Hcost.
  rewrite (gen_spinsamples_valid _ _ _ valid).
  apply (rotations_fill np_random true N _ _ _ _ check_duplicates exact
           accepted' Pc (run_candidate Pc Hcost)
           (fun r Hr => proj1 Hr) n_rotate n_rotate 0).
  - lia.
  - unfold filled, zeros. cbn [spinsamples cost].
    rewrite !repeat_length.
    split; [reflexivity|]. split.
    + apply Forall_forall. intros row Hrow.
      apply repeat_spec in Hrow. subst row. apply repeat_length.
    + split; [reflexivity|]. split.
      * apply Forall_forall. intros x Hx.
        apply repeat_spec in Hx. subst x. exact Hz.
      * intros j Hj. lia.
Qed.

End RunFacts.

(** ** The exact-arithmetic instance keeps the promises *)

Section ExactFacts.
Import Exact.

Lemma argmin_from_spec (l : list Z) (bi i : nat) (bv : Z) :
  bi < i ->
  fst (argmin_from bi bv i l) < i + length l /\
  In (snd (argmin_from bi bv i l)) (bv :: l).
Proof.
  revert bi i bv. induction l as [|v t IH]; intros bi i bv Hb; simpl.
  - split; [lia | left; reflexivity].
  - destruct (v <? bv)%Z.
    + destruct (IH i (S i) v) as (Hi & Hv); [lia|].
      split; [lia|]. right. exact Hv.
    + destruct (IH bi (S i) bv) as (Hi & Hv); [lia|].
      split; [lia|]. destruct Hv as [E|Hv]; [left; exact E | right; right; exact Hv].
Qed.

Lemma fold_add_squares (l : list Z) (acc : Z) :
  (0 <= acc)%Z -> Forall (fun v => 0 <= v)%Z l ->
  (0 <= fold_left Z.add l acc)%Z.
Proof.
  intros Ha Hl. revert acc Ha.
  induction Hl as [|v l Hv _ IH]; intros acc Ha; simpl; [exact Ha|].
  apply IH. lia.
Qed.

Lemma sqdist_nonneg (p q : list Z) : (0 <= sqdist p q)%Z.
Proof.
  unfold sqdist. apply fold_add_squares; [lia|].
  revert q. induction p as [|a p IH]; intros [|b q]; simpl;
    try (constructor; fail).
  constructor; [apply Z.square_nonneg | apply IH].
Qed.

Lemma nearest_spec (tree : list (list Z)) (x : list Z) :
  tree <> [] ->
  snd (nearest tree x) < length tree /\ (0 <= fst (nearest tree x))%Z.
Proof.
  intros Hne. unfold nearest.
  destruct tree as [|p tree]; [contradiction|]. simpl.
  pose proof (argmin_from_spec (map (sqdist x) tree) 0 1 (sqdist x p)) as Ha.
  destruct (argmin_from 0 (sqdist x p) 1 (map (sqdist x) tree)) as [i d].
  simpl in *. destruct Ha as (Hi & Hd); [lia|].
  rewrite length_map in Hi. split; [lia|].
  destruct Hd as [<-|Hd]; [apply sqdist_nonneg|].
  apply in_map_iff in Hd as (q & <- & _). apply sqdist_nonneg.
Qed.

Lemma nearest_dist_nonneg (tree : list (list Z)) (x : list Z) :
  (0 <= fst (nearest tree x))%Z.
Proof.
  destruct tree as [|p tree].
  - simpl. lia.
  - apply nearest_spec. discriminate.
Qed.

Lemma insert_everywhere_perm {A} (a : A) (l p : list A) :
  In p (insert_everywhere a l) -> Permutation p (a :: l).
Proof.
  revert p. induction l as [|b t IH]; intros p; simpl.
  - intros [<-|[]]. apply Permutation_refl.
  - intros [<-|Hin]; [apply Permutation_refl|].
    apply in_map_iff in Hin as (q & <- & Hq).
    apply IH in Hq.
    eapply Permutation_trans; [apply perm_skip; exact Hq|].
    apply perm_swap.
Qed.

Lemma orderings_perm {A} (l p : list A) :
  In p (orderings l) -> Permutation p l.
Proof.
  revert p. induction l as [|a t IH]; intros p; simpl.
  - intros [<-|[]]. apply Permutation_refl.
  - intros Hin. apply in_flat_map in Hin as (q & Hq & Hp).
    apply insert_everywhere_perm in Hp. apply IH in Hq.
    eapply Permutation_trans; [exact Hp|]. apply perm_skip. exact Hq.
Qed.

Lemma cheapest_in (m : list (list Z)) (best : list nat)
  (l : list (list nat)) :
  In (cheapest m best l) (best :: l).
Proof.
  revert best. induction l as [|c t IH]; intros best; simpl.
  - left. reflexivity.
  - destruct (assignment_cost m c <? assignment_cost m best)%Z.
    + right. apply IH.
    + destruct (IH best) as [E|Hin]; [left; exact E | right; right; exact Hin].
Qed.

#[local] Instance Scripted_IndexLaws : @IndexLaws ZFloat Scripted.
Proof.
  constructor; simpl.
  - intros tree x. unfold query. simpl. apply length_map.
  - intros tree x. unfold query. simpl. apply length_map.
  - intros tree x Hne. unfold query. simpl.
    apply Forall_map, Forall_forall. intros p _.
    apply nearest_spec. exact Hne.
  - intros x y. apply length_map.
  - intros x y. unfold dist_matrix. apply Forall_map, Forall_forall.
    intros p _. apply length_map.
  - intros m _. reflexivity.
  - intros m _.
    change (Permutation
              (cheapest m (seq 0 (length m)) (orderings (seq 0 (length m))))
              (seq 0 (length m))).
    destruct (cheapest_in m (seq 0 (length m))
                (orderings (seq 0 (length m)))) as [E|Hin].
    + rewrite <- E. apply Permutation_refl.
    + apply orderings_perm. exact Hin.
Qed.

#[local] Instance Scripted_CostLaws : @CostLaws ZFloat Scripted.
Proof.
  constructor; unfold nonneg; simpl.
  - reflexivity.
  - intros a b Ha Hb. apply Z.leb_le in Ha, Hb. apply Z.leb_le. lia.
  - intros tree x. unfold query. simpl.
    apply Forall_map, Forall_forall. intros p _.
    apply Z.leb_le, nearest_dist_nonneg.
  - intros x y. unfold dist_matrix.
    apply Forall_map, Forall_forall. intros p _.
    apply Forall_map, Forall_forall. intros q _.
    apply Z.leb_le, sqdist_nonneg.
Qed.

End ExactFacts.

(** ** Shape, cost, hemispheres *)

Lemma within_pointwise (labs : list Z) (N : nat) (h : Z) (col : list Z)
  (i : nat) :
  length labs = N -> length col = N ->
  within (map (fun l => (l =? h)%Z) labs) N col ->
  i < N -> nth i labs 0%Z = h ->
  (0 <= nth i col 0 < Z.of_nat N)%Z /\
  nth (Z.to_nat (nth i col 0%Z)) labs 0%Z = h.
Proof.
  intros Hlabs Hcol Hw Hi Hl.
  assert (Hin : In (nth i col 0%Z)
                   (select (map (fun l => (l =? h)%Z) labs) (arange N))).
  { apply (select_Forall_nth _ _ _ 0%Z i Hw); [|lia].
    apply nth_label_mask. split; [lia | exact Hl]. }
  apply In_select_arange in Hin; [|rewrite length_map; exact Hlabs].
  destruct Hin as (Hr & Hm). split; [exact Hr|].
  apply nth_label_mask in Hm. apply Hm.
Qed.

Ltac valid_by_computation :=
  unfold valid_input, wf; cbn;
  repeat match goal with
         | |- _ /\ _ => split
         | |- Forall _ [] => constructor
         | |- Forall _ (_ :: _) => constructor
         | |- Exists _ (_ :: _) =>
             first [ apply Exists_cons_hd; reflexivity | apply Exists_cons_tl ]
         | |- _ \/ _ => first [ left; reflexivity | right; reflexivity ]
         | |- _ = _ => reflexivity
         | |- (_ <= _)%Z => discriminate
         end.

Lemma doc_input_valid :
  valid_input (H := Exact.ZFloat) Exact.doc_coords Exact.doc_hemi 4.
Proof. valid_by_computation. Defined.

Lemma three_input_valid :
  valid_input (H := Exact.ZFloat) Exact.three_coords Exact.three_hemi 3.
Proof. valid_by_computation. Defined.

Lemma two_input_valid :
  valid_input (H := Exact.ZFloat) Exact.two_coords Exact.two_hemi 2.
Proof. valid_by_computation. Defined.

Lemma fractional_input_valid :
  valid_input (H := Exact.ZFloat) Exact.two_coords Exact.fractional_hemi 2.
Proof. valid_by_computation. Defined.

(** C6.  On valid input [gen_spinsamples] returns: the resampling matrix
    has one row per point and one column per rotation, the cost vector one
    entry per rotation, and no cost is negative.  ([n_rotate] need not be
    positive for this.) *)
Theorem gen_spinsamples_shape_and_cost
  `{Collaborators} {IL : IndexLaws} {CL : CostLaws}
  (np_random : RandomState) (coords : ndarray F) (hemiid : ndarray Q)
  (N n_rotate : nat) (check_duplicates exact : bool) (seed : seed_arg) :
  valid_input coords hemiid N ->
  exists st,
    gen_spinsamples np_random coords hemiid n_rotate check_duplicates exact
                    seed = Return st /\
    length (spinsamples st) = N /\
    Forall (fun row => length row = n_rotate) (spinsamples st) /\
    length (cost st) = n_rotate /\
    Forall nonneg (cost st).
Proof.
  intros Hv.
  destruct (run_returns coords hemiid N Hv np_random check_duplicates exact
              nonneg n_rotate seed)
    as (st & Hst & Hl & Hr & Hc & Hn & _).
  - apply zero_nonneg.
  - intros s s' r c. apply candidate_cost_nonneg.
  - exists st. auto.
Qed.

Lemma gen_spinsamples_shape_and_cost_witness :
  exists st,
    gen_spinsamples (H0 := Exact.Scripted) [] Exact.doc_coords Exact.doc_hemi
                    2 true false (SeedInt 1) = Return st /\
    length (spinsamples st) = 4 /\
    Forall (fun row => length row = 2) (spinsamples st) /\
    length (cost st) = 2 /\
    Forall nonneg (cost st).
Proof.
  apply (@gen_spinsamples_shape_and_cost _ _ Scripted_IndexLaws
           Scripted_CostLaws).
  exact doc_input_valid.
Defined.

(** C2.  In every column of the resampling matrix the donor of a point
    is a point of the same hemisphere, in exact and in approximate mode
    alike. *)
Theorem hemisphere_separation
  `{Collaborators} {IL : IndexLaws}
  (np_random : RandomState) (coords : ndarray F) (hemiid : ndarray Q)
  (N n_rotate : nat) (check_duplicates exact : bool) (seed : seed_arg)
  (st : spin_state) :
  valid_input coords hemiid N ->
  gen_spinsamples np_random coords hemiid n_rotate check_duplicates exact seed
  = Return st ->
  forall r i, r < n_rotate -> i < N ->
    let donor := nth r (nth i (spinsamples st) []) 0%Z in
    (0 <= donor < Z.of_nat N)%Z /\
    nth (Z.to_nat donor) (labels hemiid) 0%Z = nth i (labels hemiid) 0%Z.
Proof.
  intros Hv Hrun r i Hr Hi donor.
  destruct (run_returns coords hemiid N Hv np_random check_duplicates exact
              (fun _ => True) n_rotate seed I (fun _ _ _ _ _ => I))
    as (st' & Hst & Hl & _ & _ & _ & Hcols).
  rewrite Hrun in Hst. injection Hst as <-.
  destruct (Hcols r Hr) as (Hcl & Hw0 & Hw1 & _).
  pose proof (valid_labels_length _ _ _ Hv) as Hlabs.
  assert (Hd : donor = nth i (column 0%Z r (spinsamples st)) 0%Z).
  { unfold donor. rewrite nth_column by lia. reflexivity. }
  rewrite Hd.
  pose proof (valid_labels_binary _ _ _ Hv) as Hb.
  rewrite Forall_forall in Hb.
  destruct (Hb (nth i (labels hemiid) 0%Z)) as [E|E].
  - apply nth_In. lia.
  - rewrite E. apply within_pointwise; assumption.
  - rewrite E. apply within_pointwise; assumption.
Qed.

Lemma hemisphere_separation_witness :
  exists st,
    gen_spinsamples (H0 := Exact.Scripted) [] Exact.doc_coords Exact.doc_hemi
                    1 true false (SeedInt 1) = Return st /\
    (0 <= nth 0 (nth 3 (spinsamples st) []) 0 < 4)%Z /\
    nth (Z.to_nat (nth 0 (nth 3 (spinsamples st) []) 0%Z))
        (labels Exact.doc_hemi) 0%Z
    = nth 3 (labels Exact.doc_hemi) 0%Z.
Proof.
  eexists. split; [vm_compute; reflexivity|].
  apply (@hemisphere_separation _ _ Scripted_IndexLaws [] Exact.doc_coords
           Exact.doc_hemi 4 1 true false (SeedInt 1) _ doc_input_valid).
  - vm_compute. reflexivity.
  - lia.
  - lia.
Defined.

(** ** Exact and approximate assignment *)

Lemma permutation_of_distinct_counts (l cells : list Z) (d : Z) :
  Permutation l cells -> NoDup cells -> In d cells ->
  count_occ Z.eq_dec l d = 1.
Proof.
  intros Hp Hnd Hin.
  rewrite (Permutation_count_occ Z.eq_dec) in Hp. rewrite Hp.
  apply NoDup_count_occ'; assumption.
Qed.

(** C1.  In exact mode every column, read on the points of one
    hemisphere, is a rearrangement of those points: every index of the
    hemisphere is the donor of exactly one of its points.  In approximate
    mode a donor can come back: on the coordinates of the docstring the
    quarter turn about the y axis sends both left points to donor 0 and
    both right points to donor 3. *)
Theorem exact_bijective_approximate_repeats :
  (forall (fl : Float64) (C : Collaborators) (IL : IndexLaws)
          (np_random : RandomState) (coords : ndarray F) (hemiid : ndarray Q)
          (N n_rotate : nat) (check_duplicates : bool) (seed : seed_arg)
          (st : spin_state),
     valid_input coords hemiid N ->
     gen_spinsamples np_random coords hemiid n_rotate check_duplicates true
                     seed = Return st ->
     forall r h, r < n_rotate -> h = 0%Z \/ h = 1%Z ->
       let col := select (hemisphere hemiid h)
                         (column 0%Z r (spinsamples st)) in
       let cells := select (hemisphere hemiid h) (arange N) in
       Permutation col cells /\
       forall d, In d cells -> count_occ Z.eq_dec col d = 1)
  /\
  (exists st,
     valid_input (H := Exact.ZFloat) Exact.doc_coords Exact.doc_hemi 4 /\
     gen_spinsamples (H0 := Exact.Scripted) [] Exact.doc_coords Exact.doc_hemi
                     1 true false (SeedInt 1) = Return st /\
     column 0%Z 0 (spinsamples st) = [0; 0; 3; 3]%Z).
Proof.
  split.
  - intros fl C IL np_random coords hemiid N n_rotate check_duplicates seed
           st Hv Hrun r h Hr Hh col cells.
    destruct (run_returns coords hemiid N Hv np_random check_duplicates true
                (fun _ => True) n_rotate seed I (fun _ _ _ _ _ => I))
      as (st' & Hst & _ & _ & _ & _ & Hcols).
    rewrite Hrun in Hst. injection Hst as <-.
    destruct (Hcols r Hr) as (_ & _ & _ & Hex).
    destruct (Hex eq_refl) as (Hb0 & Hb1).
    assert (Hp : Permutation col cells).
    { unfold col, cells. destruct Hh as [->| ->]; assumption. }
    split; [exact Hp|].
    intros d Hd. apply (permutation_of_distinct_counts _ cells); auto.
    unfold cells. apply select_NoDup, arange_NoDup.
  - eexists. split; [exact doc_input_valid|].
    split; vm_compute; reflexivity.
Qed.

Lemma exact_bijective_approximate_repeats_witness :
  exists st,
    gen_spinsamples (H0 := Exact.Scripted) [] Exact.three_coords
                    Exact.three_hemi 1 true true
                    (@SeedInstance _ Exact.Scripted [Exact.swap_xz]) = Return st /\
    Permutation
      (select (hemisphere Exact.three_hemi 0) (column 0%Z 0 (spinsamples st)))
      (select (hemisphere Exact.three_hemi 0) (arange 3)) /\
    column 0%Z 0 (spinsamples st) = [1; 0; 2]%Z.
Proof.
  eexists. split; [vm_compute; reflexivity|]. split.
  - apply (proj1 exact_bijective_approximate_repeats Exact.ZFloat
             Exact.Scripted Scripted_IndexLaws [] Exact.three_coords
             Exact.three_hemi 3 1 true (@SeedInstance _ Exact.Scripted [Exact.swap_xz]) _
             three_input_valid).
    + vm_compute. reflexivity.
    + lia.
    + left. reflexivity.
  - vm_compute. reflexivity.
Defined.

(** ** Duplicate checking switched off *)

Section Unchecked.
Context `{Collaborators}.
Variable np_random : RandomState.
Variable coords_2d : bool.
Variable N : nat.
Variables coords_l coords_r : matrix.
Variables m_l m_r : list bool.
Variable exact : bool.

(** Without duplicate checking the loop is one candidate: whatever the
    columns already stored, the first candidate comes back with
    [count = 1]. *)
Lemma unchecked_loop_is_one_candidate (budget count : nat)
  (spins : list (list Z)) (n : nat) (seed : RandomState) :
  attempts_loop np_random coords_2d N coords_l coords_r m_l m_r false exact
                budget count spins n seed
  = ('(resampled, ccost, seed') <-
       candidate np_random coords_2d N coords_l coords_r m_l m_r exact seed ;;
     Return (resampled, ccost, count + 1, seed')).
Proof.
  destruct budget; simpl;
    destruct (candidate np_random coords_2d N coords_l coords_r m_l m_r
                        exact seed) as [[[r c] s]|e]; reflexivity.
Qed.

Lemma unchecked_rotation (n : nat) (st st' : spin_state) :
  rotation np_random coords_2d N coords_l coords_r m_l m_r false exact n st
  = Return st' ->
  warned st = false -> warnings st = [] -> attempts st = repeat 1 n ->
  warned st' = false /\ warnings st' = [] /\ attempts st' = repeat 1 (S n).
Proof.
  unfold rotation. rewrite unchecked_loop_is_one_candidate.
  intros Hr Hw Hws Ha.
  apply bind_return_inv in Hr as ([[[r c] k] s] & Hc & Hr).
  apply bind_return_inv in Hc as ([[r0 c0] s0] & _ & Hc).
  injection Hc as <- <- <- <-. injection Hr as <-. cbn.
  rewrite Hw, Hws, Ha. repeat split.
  symmetry. apply repeat_cons.
Qed.

End Unchecked.

(** C8.  With [check_duplicates] off, a run on valid input fills every
    column with its first candidate: [count] ends at 1 for each column, the
    retry loop is a single call of [candidate] that does not look at the
    stored columns, and no warning is issued. *)
Theorem unchecked_run_single_attempts
  `{Collaborators} {IL : IndexLaws}
  (np_random : RandomState) (coords : ndarray F) (hemiid : ndarray Q)
  (N n_rotate : nat) (exact : bool) (seed : seed_arg) :
  valid_input coords hemiid N ->
  exists st,
    gen_spinsamples np_random coords hemiid n_rotate false exact seed
    = Return st /\
    attempts st = repeat 1 n_rotate /\
    warnings st = [] /\
    forall budget count spins n rs,
      attempts_loop np_random true N
        (select (hemisphere hemiid 0) (rows coords))
        (select (hemisphere hemiid 1) (rows coords))
        (hemisphere hemiid 0) (hemisphere hemiid 1) false exact
        budget count spins n rs
      = ('(resampled, ccost, rs') <-
           candidate np_random true N
             (select (hemisphere hemiid 0) (rows coords))
             (select (hemisphere hemiid 1) (rows coords))
             (hemisphere hemiid 0) (hemisphere hemiid 1) exact rs ;;
         Return (resampled, ccost, count + 1, rs')).
Proof.
  intros Hv.
  destruct (run_returns coords hemiid N Hv np_random false exact
              (fun _ => True) n_rotate seed I (fun _ _ _ _ _ => I))
    as (st & Hst & _).
  exists st. split; [exact Hst|].
  rewrite (gen_spinsamples_valid _ _ _ Hv) in Hst.
  apply (rotations_invariant np_random true N
           (select (hemisphere hemiid 0) (rows coords))
           (select (hemisphere hemiid 1) (rows coords))
           (hemisphere hemiid 0) (hemisphere hemiid 1) false exact
           (fun n st => warned st = false /\ warnings st = [] /\
                        attempts st = repeat 1 n)) in Hst.
  2: { intros n s s' (Hw & Hws & Ha) Hr.
       eapply unchecked_rotation; eassumption. }
  2: { cbn. auto. }
  destruct Hst as (_ & Hws & Ha).
  split; [exact Ha|]. split; [exact Hws|].
  intros. apply unchecked_loop_is_one_candidate.
Qed.

Lemma unchecked_run_single_attempts_witness :
  exists st,
    gen_spinsamples (H0 := Exact.Scripted) [] Exact.two_coords Exact.two_hemi
                    3 false false (SeedInt 1) = Return st /\
    attempts st = [1; 1; 1] /\
    warnings st = [].
Proof.
  destruct (@unchecked_run_single_attempts _ _ Scripted_IndexLaws []
              Exact.two_coords Exact.two_hemi 2 3 false (SeedInt 1)
              two_input_valid) as (st & Hst & Ha & Hw & _).
  exists st. auto.
Defined.

(** ** Warnings *)

(** A run warns at most once, and it warns exactly when the [count] of
    some column ended at [max_attempts]. *)
Lemma run_warning_discipline `{Collaborators}
  (np_random : RandomState) (coords : ndarray F) (hemiid : ndarray Q)
  (N n_rotate : nat) (check_duplicates exact : bool) (seed : seed_arg)
  (st : spin_state) :
  valid_input coords hemiid N ->
  gen_spinsamples np_random coords hemiid n_rotate check_duplicates exact seed
  = Return st ->
  length (warnings st) <= 1 /\
  (warnings st = [DuplicateRotationsWarning] <->
   In max_attempts (attempts st)).
Proof.
  intros Hv Hst. rewrite (gen_spinsamples_valid _ _ _ Hv) in Hst.
  apply (rotations_invariant np_random true N
           (select (hemisphere hemiid 0) (rows coords))
           (select (hemisphere hemiid 1) (rows coords))
           (hemisphere hemiid 0) (hemisphere hemiid 1)
           check_duplicates exact (fun _ => warning_discipline)) in Hst.
  2: { intros n s s' Hs Hr.
       eapply rotation_warning_discipline; eassumption. }
  2: { split; cbn; [auto | discriminate]. }
  destruct Hst as (Hf & Ht). destruct (warned st).
  - destruct (Ht eq_refl) as (-> & Hin). split; [simpl; lia|].
    split; auto.
  - destruct (Hf eq_refl) as (-> & Hall). split; [simpl; lia|].
    split; [discriminate|]. intros Hin.
    rewrite Forall_forall in Hall. exfalso. exact (Hall _ Hin eq_refl).
Qed.

(** A column that used up its attempts on duplicates is stored as it is,
    with the warning: with one point per hemisphere every candidate is the
    identity. *)
Lemma exhausted_budget_accepts_duplicate :
  exists st,
    gen_spinsamples (H0 := Exact.Scripted) [] Exact.two_coords Exact.two_hemi
                    2 true false (SeedInt 1) = Return st /\
    attempts st = [max_attempts; max_attempts] /\
    column 0%Z 0 (spinsamples st) = arange 2 /\
    column 0%Z 1 (spinsamples st) = arange 2 /\
    warnings st = [DuplicateRotationsWarning].
Proof.
  eexists. split; [vm_compute; reflexivity|].
  repeat split; vm_compute; reflexivity.
Qed.

(** C3, at the input where the code departs from it.  The random source
    gives the identity rotation 499 times and then the half turn that
    swaps the two left points.  The 500th candidate is neither the
    identity nor a stored column and is accepted within the budget, yet
    the run warns of duplicate rotations: the warning is tied to
    [count == 500], not to the candidate being a duplicate. *)
Theorem last_attempt_success_still_warns :
  exists st,
    gen_spinsamples (H0 := Exact.Scripted) [] Exact.three_coords
                    Exact.three_hemi 1 true false
                    (@SeedInstance _ Exact.Scripted Exact.late_success_tape)
    = Return st /\
    attempts st = [max_attempts] /\
    column 0%Z 0 (spinsamples st) = [1; 0; 2]%Z /\
    is_duplicated 3 true [1; 0; 2]%Z (zeros (zeros 0%Z 1) 3) 0 = false /\
    warnings st = [DuplicateRotationsWarning].
Proof.
  eexists. split; [vm_compute; reflexivity|].
  repeat split; vm_compute; reflexivity.
Qed.

(** ** Determinism *)

Section Determinism.
Context `{Collaborators}.
Variables g1 g2 : RandomState.
Variable coords_2d : bool.
Variable N : nat.
Variables coords_l coords_r : matrix.
Variables m_l m_r : list bool.
Variables check_duplicates exact : bool.

(** Inside the loop the rotation is drawn from the RandomState made at
    the start of the call, never from numpy's process-wide generator:
    [check_random_state] hands back the instance it is given, so the two
    sides of each equation below unfold to one and the same term. *)
Lemma gen_rotation_ignores_global (seed : RandomState) :
  _gen_rotation g1 (SeedInstance seed) = _gen_rotation g2 (SeedInstance seed).
Proof. reflexivity. Qed.

Lemma candidate_ignores_global (seed : RandomState) :
  candidate g1 coords_2d N coords_l coords_r m_l m_r exact seed
  = candidate g2 coords_2d N coords_l coords_r m_l m_r exact seed.
Proof.
  unfold candidate. rewrite gen_rotation_ignores_global. reflexivity.
Qed.

Lemma attempts_loop_ignores_global (budget count : nat)
  (spins : list (list Z)) (n : nat) (seed : RandomState) :
  attempts_loop g1 coords_2d N coords_l coords_r m_l m_r
                check_duplicates exact budget count spins n seed
  = attempts_loop g2 coords_2d N coords_l coords_r m_l m_r
                  check_duplicates exact budget count spins n seed.
Proof.
  revert count seed. induction budget as [|b IH]; intros count seed;
    cbn [attempts_loop]; rewrite candidate_ignores_global.
  - reflexivity.
  - destruct (candidate g2 coords_2d N coords_l coords_r m_l m_r exact seed)
      as [[[r c] s]|e]; cbn [Py.bind]; [|reflexivity].
    destruct (is_duplicated N check_duplicates r spins n
              && (count + 1 <? max_attempts)); [apply IH | reflexivity].
Qed.

Lemma rotations_ignore_global (ns : list nat) (st : spin_state) :
  rotations g1 coords_2d N coords_l coords_r m_l m_r
            check_duplicates exact ns st
  = rotations g2 coords_2d N coords_l coords_r m_l m_r
              check_duplicates exact ns st.
Proof.
  revert st. induction ns as [|n ns IH]; intros st; cbn [rotations];
    [reflexivity|].
  unfold rotation. rewrite attempts_loop_ignores_global.
  destruct (attempts_loop g2 coords_2d N coords_l coords_r m_l m_r
              check_duplicates exact (max_attempts - 1) 0 (spinsamples st) n
              (rng st)) as [[[[r c] k] s]|e]; cbn [Py.bind];
    [apply IH | reflexivity].
Qed.

End Determinism.

(** C4.  Two calls with the same arguments and the same integer seed
    return the same resampling matrix and the same cost vector (and warn
    alike), whatever state numpy's process-wide generator is in at each of
    the two calls.  The external routines are functions of their
    arguments here: ties inside a solver are broken the same way both
    times. *)
Theorem seeded_runs_agree `{Collaborators}
  (g1 g2 : RandomState) (coords : ndarray F) (hemiid : ndarray Q)
  (n_rotate : nat) (check_duplicates exact : bool) (seed : Z) :
  gen_spinsamples g1 coords hemiid n_rotate check_duplicates exact
                  (SeedInt seed)
  = gen_spinsamples g2 coords hemiid n_rotate check_duplicates exact
                    (SeedInt seed).
Proof.
  unfold gen_spinsamples. cbn [check_random_state].
  destruct (last_dim coords) as [d|e]; cbn [Py.bind]; [|reflexivity].
  repeat match goal with
         | |- (if ?b then _ else _) = (if ?b then _ else _) =>
             destruct b; [reflexivity|]
         | |- Py.bind ?m _ = Py.bind ?m _ =>
             destruct m; cbn [Py.bind]; [|reflexivity]
         end.
  apply rotations_ignore_global.
Qed.

(** Without a seed the draws come from the process-wide generator, and
    two calls need not agree. *)
Lemma unseeded_runs_may_differ :
  gen_spinsamples (H0 := Exact.Scripted) [Exact.quarter_turn_y]
                  Exact.doc_coords Exact.doc_hemi 1 true false SeedNone
  <> gen_spinsamples (H0 := Exact.Scripted) [Exact.swap_xz]
                     Exact.doc_coords Exact.doc_hemi 1 true false SeedNone.
Proof. vm_compute. discriminate. Qed.

(** ** Validation failures *)

Lemma np_max_all_zero (l : list Z) :
  l <> [] -> Forall (fun z => z = 0%Z) l -> np_max l = Return 0%Z.
Proof.
  intros Hne Hall. apply np_max_is. split.
  - destruct l as [|x t]; [contradiction|].
    inversion Hall; subst. left. reflexivity.
  - eapply Forall_impl; [|exact Hall]. simpl. intros z ->. lia.
Qed.

(** C5.  Invalid input is refused before the loop over rotations is
    reached, so the result is the exception alone, whatever the random
    source and the number of rotations: coordinates of shape (N, 2) raise
    the shape error; labels that are all 0, given with coordinates that
    pass the shape check and in matching number, raise the domain error. *)
Theorem validation_fails_fast `{Collaborators}
  (np_random : RandomState) (coords : ndarray F) (hemiid : ndarray Q)
  (n_rotate : nat) (check_duplicates exact : bool) (seed : seed_arg) :
  (forall N, shape coords = [N; 2] ->
     gen_spinsamples np_random coords hemiid n_rotate check_duplicates exact
                     seed = Raise CoordsShapeError)
  /\
  (last_dim coords = Return 3 -> ndim (squeeze coords) = 2 ->
   ndim (squeeze hemiid) = 1 -> len coords = len (squeeze hemiid) ->
   data hemiid <> [] ->
   Forall (fun q => astype_int q = 0%Z) (data hemiid) ->
     gen_spinsamples np_random coords hemiid n_rotate check_duplicates exact
                     seed = Raise HemiidDomainError).
Proof.
  split.
  - intros N Hs. unfold gen_spinsamples, last_dim. rewrite Hs. reflexivity.
  - intros Hd Hc Hh Hl Hne Hz. unfold gen_spinsamples.
    rewrite Hd. cbn [Py.bind Nat.eqb negb orb].
    rewrite Hc. cbn [Nat.eqb negb].
    change (ndim (squeeze {| shape := shape hemiid;
                             data := map astype_int (data hemiid) |}))
      with (ndim (squeeze hemiid)).
    rewrite Hh. cbn [Nat.eqb negb].
    change (len (squeeze {| shape := shape hemiid;
                            data := map astype_int (data hemiid) |}))
      with (len (squeeze hemiid)).
    rewrite Hl, Nat.eqb_refl. cbn [negb squeeze data].
    rewrite np_max_all_zero.
    + reflexivity.
    + destruct (data hemiid); [contradiction | discriminate].
    + apply Forall_map. exact Hz.
Qed.

Lemma validation_fails_fast_witness :
  gen_spinsamples (H0 := Exact.Scripted) []
    {| shape := [4; 2]; data := [0; 1; 1; 0; 0; 1; 1; 0]%Z |}
    Exact.doc_hemi 10 true false (SeedInt 1) = Raise CoordsShapeError
  /\
  gen_spinsamples (H0 := Exact.Scripted) [] Exact.doc_coords
    {| shape := [4]; data := [0#1; 0#1; 0#1; 0#1]%Q |}
    10 true false (SeedInt 1) = Raise HemiidDomainError.
Proof.
  split.
  - apply (proj1 (@validation_fails_fast _ Exact.Scripted [] _ _ 10 true false
                    (SeedInt 1)) 4).
    reflexivity.
  - apply (proj2 (@validation_fails_fast _ Exact.Scripted [] _ _ 10 true false
                    (SeedInt 1))).
    + reflexivity.
    + reflexivity.
    + reflexivity.
    + reflexivity.
    + discriminate.
    + repeat constructor.
Defined.

(** ** The rotation pair *)

(** The array [reflect] of the source is diag(-1, 1, 1). *)
Lemma reflect_is_diag `{Collaborators} :
  reflect = diag_matrix [f_neg f_one; f_one; f_one].
Proof. reflexivity. Qed.

(** C9.  Whatever the random source, the right rotation is the left one
    taken between two copies of the reflection diag(-1, 1, 1). *)
Theorem right_rotation_is_conjugate `{Collaborators}
  (np_random : RandomState) (seed : seed_arg) :
  let F_ := diag_matrix [f_neg f_one; f_one; f_one] in
  let rotate_l := fst (fst (_gen_rotation np_random seed)) in
  let rotate_r := snd (fst (_gen_rotation np_random seed)) in
  rotate_r = matmul (matmul F_ rotate_l) F_.
Proof.
  intros F_ rotate_l rotate_r. unfold rotate_l, rotate_r, F_.
  rewrite <- reflect_is_diag. unfold _gen_rotation.
  destruct (rs_normal (check_random_state np_random seed) 3 3) as [g rs].
  destruct (linalg_qr g) as [q t].
  reflexivity.
Qed.

(** On the exact instance: the draw of seed 1 and its mirror image. *)
Lemma quarter_turn_pair :
  _gen_rotation (H0 := Exact.Scripted) [] (SeedInt 1)
  = ([[0; 0; -1]; [0; 1; 0]; [1; 0; 0]]%Z,
     [[0; 0; 1]; [0; 1; 0]; [-1; 0; 0]]%Z, []).
Proof. reflexivity. Qed.

(** ** Labels that are not integers *)

(** C10.  The labels are cast to integers before they are checked: with
    [hemiid = [0.5, 1.9]] the call is the call with [hemiid = [0, 1]], and
    on two points of three coordinates it returns instead of raising the
    domain error. *)
Theorem fractional_labels_are_truncated
  `{Collaborators} {IL : IndexLaws}
  (np_random : RandomState) (coords : ndarray F)
  (n_rotate : nat) (check_duplicates exact : bool) (seed : seed_arg) :
  shape coords = [2; 3] ->
  gen_spinsamples np_random coords Exact.fractional_hemi n_rotate
                  check_duplicates exact seed
  = gen_spinsamples np_random coords Exact.two_hemi n_rotate
                    check_duplicates exact seed
  /\
  exists st,
    gen_spinsamples np_random coords Exact.fractional_hemi n_rotate
                    check_duplicates exact seed = Return st.
Proof.
  intros Hs. split; [reflexivity|].
  assert (Hv : valid_input coords Exact.fractional_hemi 2).
  { unfold valid_input. split; [exact Hs|]. valid_by_computation. }
  destruct (run_returns coords Exact.fractional_hemi 2 Hv np_random
              check_duplicates exact (fun _ => True) n_rotate seed I
              (fun _ _ _ _ _ => I)) as (st & Hst & _).
  exists st. exact Hst.
Qed.

Lemma fractional_labels_are_truncated_witness :
  gen_spinsamples (H0 := Exact.Scripted) [] Exact.two_coords
                  Exact.fractional_hemi 2 false false (SeedInt 1)
  = gen_spinsamples (H0 := Exact.Scripted) [] Exact.two_coords
                    Exact.two_hemi 2 false false (SeedInt 1)
  /\
  exists st,
    gen_spinsamples (H0 := Exact.Scripted) [] Exact.two_coords
                    Exact.fractional_hemi 2 false false (SeedInt 1)
    = Return st.
Proof.
  apply (@fractional_labels_are_truncated _ _ Scripted_IndexLaws).
  reflexivity.
Defined.

(** ** The p-values of the permutation tests *)

Section PermtestFacts.
Context `{StatRoutines}.

Lemma tally_length (permutations : list Z) (abs_true null : list F) :
  length (tally permutations abs_true null) = length permutations.
Proof. unfold tally. rewrite length_map, length_seq. reflexivity. Qed.

Lemma nth_tally (permutations : list Z) (abs_true null : list F) (i : nat) :
  i < length permutations ->
  nth i (tally permutations abs_true null) 0%Z
  = (nth i permutations 0 + if exceeds abs_true null i then 1 else 0)%Z.
Proof.
  intros Hi. unfold tally.
  rewrite (nth_indep _ 0%Z
             ((fun j => (nth j permutations 0
                         + if exceeds abs_true null j then 1 else 0)%Z) 0))
    by (rewrite length_map, length_seq; exact Hi).
  rewrite (map_nth (fun j => (nth j permutations 0
                              + if exceeds abs_true null j then 1 else 0)%Z)).
  rewrite seq_nth by exact Hi. reflexivity.
Qed.

Lemma counter_le (abs_true : list F) (nulls : list (list F)) (i : nat) :
  counter abs_true nulls i <= length nulls.
Proof. unfold counter. apply filter_length_le. Qed.

(** When the loop ends, every count has grown by the number of null
    statistics that reached the observed one. *)
Lemma permutation_loop_counts
  (null_statistic : nat -> RandomState -> result (ndarray F * RandomState))
  (abs_true : list F) (perms : list nat) (permutations final : list Z)
  (rs rs' : RandomState) :
  permutation_loop null_statistic abs_true perms permutations rs
  = Return (final, rs') ->
  length (null_statistics null_statistic perms rs) = length perms /\
  length final = length permutations /\
  forall i, i < length permutations ->
    nth i final 0%Z
    = (nth i permutations 0
       + Z.of_nat (counter abs_true
                           (null_statistics null_statistic perms rs) i))%Z.
Proof.
  revert permutations rs.
  induction perms as [|perm perms IH]; intros permutations rs Hl;
    simpl in Hl |- *.
  - injection Hl as <- <-. split; [reflexivity|]. split; [reflexivity|].
    intros i _. unfold counter. simpl. lia.
  - apply bind_return_inv in Hl as ([null rs1] & Hn & Hl).
    rewrite Hn. apply IH in Hl as (Hlen & Hfl & Hcnt).
    rewrite tally_length in Hfl, Hcnt.
    split; [simpl; rewrite Hlen; reflexivity|]. split; [exact Hfl|].
    intros i Hi. rewrite (Hcnt i Hi), nth_tally by exact Hi.
    unfold counter. simpl.
    destruct (exceeds abs_true (data null) i); simpl length; lia.
Qed.

Lemma list_as_map_nth (l : list Z) :
  l = map (fun i => nth i l 0%Z) (seq 0 (length l)).
Proof. symmetry. apply map_nth_seq. Qed.

Lemma smoothed_bounds (count n_perm : nat) :
  count <= n_perm ->
  (1 # Pos.of_succ_nat n_perm <= smoothed count n_perm)%Q /\
  (smoothed count n_perm <= 1)%Q.
Proof.
  intros Hc. unfold smoothed, Qle. simpl.
  rewrite Zpos_P_of_succ_nat. split; nia.
Qed.

(** The loop and the quotient, for any way of drawing null statistics. *)
Lemma assess_pvalues
  (null_statistic : nat -> RandomState -> result (ndarray F * RandomState))
  (true_stat : ndarray F) (n_perm : nat) (rs : RandomState)
  (stat : ndarray F) (pvals : ndarray Q) :
  assess null_statistic true_stat n_perm rs = Return (Computed stat pvals) ->
  let nulls := null_statistics null_statistic (seq 0 n_perm) rs in
  stat = true_stat /\
  length nulls = n_perm /\
  shape pvals = shape stat /\
  data pvals
  = map (fun i => smoothed (counter (data (np_abs stat)) nulls i) n_perm)
        (seq 0 (size stat)).
Proof.
  intros Ha nulls. unfold assess in Ha.
  apply bind_return_inv in Ha as ([final rs'] & Hl & Ha).
  injection Ha as <- <-.
  apply permutation_loop_counts in Hl as (Hlen & Hfl & Hcnt).
  rewrite length_seq in Hlen.
  unfold ones in Hfl, Hcnt. rewrite repeat_length in Hfl, Hcnt.
  split; [reflexivity|]. split; [exact Hlen|]. split; [reflexivity|].
  unfold to_pvals. cbn [data]. unfold size.
  rewrite (list_as_map_nth final) at 1. rewrite Hfl, map_map.
  apply map_ext_in. intros i Hi. apply in_seq in Hi.
  rewrite (Hcnt i) by lia.
  rewrite nth_repeat_lt by lia.
  unfold smoothed. f_equal. fold nulls. lia.
Qed.

Lemma permtest_is_finish (np_random : RandomState) (t : test)
  (axis : option nat) (n_perm : nat) (seed : seed_arg) :
  permtest np_random t axis n_perm seed
  = finish (setup np_random t axis n_perm seed) n_perm.
Proof. destruct t; reflexivity. Qed.

End PermtestFacts.

(** C7.  Whenever one of the three permutation tests returns p-values,
    each of them is [(counter + 1) / (n_perm + 1)], where [counter] counts,
    among the [n_perm] null statistics of the run, those whose absolute
    value is at least the absolute observed statistic; so each lies between
    [1 / (n_perm + 1)] and 1.  (The quotient is the rational one; the
    source rounds it to a float.) *)
Theorem permtest_pvalue `{StatRoutines}
  (np_random : RandomState) (t : test) (axis : option nat) (n_perm : nat)
  (seed : seed_arg) (stat : ndarray F) (pvals : ndarray Q) :
  permtest np_random t axis n_perm seed = Return (Computed stat pvals) ->
  let nulls := null_distribution np_random t axis n_perm seed in
  let abs_true := data (np_abs stat) in
  length nulls = n_perm /\
  shape pvals = shape stat /\
  data pvals
  = map (fun i => smoothed (counter abs_true nulls i) n_perm)
        (seq 0 (size stat)) /\
  Forall (fun p => (1 # Pos.of_succ_nat n_perm <= p)%Q /\ (p <= 1)%Q)
         (data pvals).
Proof.
  intros Hrun nulls abs_true.
  rewrite permtest_is_finish in Hrun. unfold finish in Hrun.
  apply bind_return_inv in Hrun as (p & Hset & Hrun).
  destruct p as [[[null_statistic true_stat] rs]|]; [|discriminate].
  apply assess_pvalues in Hrun as (_ & Hlen & Hshape & Hdata).
  assert (Hn : nulls = null_statistics null_statistic (seq 0 n_perm) rs).
  { unfold nulls, null_distribution. rewrite Hset. reflexivity. }
  rewrite <- Hn in Hlen, Hdata.
  split; [exact Hlen|]. split; [exact Hshape|]. split; [exact Hdata|].
  rewrite Hdata. apply Forall_map, Forall_forall. intros i _.
  apply smoothed_bounds. rewrite <- Hlen. apply counter_le.
Qed.

Lemma permtest_pvalue_witness :
  permtest (H1 := Exact.ScriptedStats) []
           (OneSample (H := Exact.ZFloat) Exact.sample Exact.zero_mean) (Some 0) 3
           (@SeedInstance _ Exact.Scripted
              [Exact.quarter_turn_y; Exact.swap_xz])
  = Return (Computed (H := Exact.ZFloat)
                     {| shape := []; data := [6%Z] |}
                     {| shape := []; data := [(3 # 4)%Q] |})
  /\
  data {| shape := @nil nat; data := [(3 # 4)%Q] |}
  = map (fun i =>
           smoothed
             (counter (data (np_abs (H := Exact.ZFloat)
                                    {| shape := []; data := [6%Z] |}))
                      (null_distribution (H1 := Exact.ScriptedStats) []
                         (OneSample (H := Exact.ZFloat) Exact.sample Exact.zero_mean) (Some 0) 3
                         (@SeedInstance _ Exact.Scripted
                            [Exact.quarter_turn_y; Exact.swap_xz]))
                      i) 3)
        (seq 0 (size {| shape := @nil nat; data := [6%Z] |})).
Proof.
  split; [vm_compute; reflexivity|].
  apply (@permtest_pvalue _ _ Exact.ScriptedStats []
           (OneSample (H := Exact.ZFloat) Exact.sample Exact.zero_mean) (Some 0) 3
           (@SeedInstance _ Exact.Scripted
              [Exact.quarter_turn_y; Exact.swap_xz])
           {| shape := []; data := [6%Z] |}
           {| shape := []; data := [(3 # 4)%Q] |}).
  vm_compute. reflexivity.
Defined.

(* ================================================================== *)
(** * Further properties of the spin-sample generator *)

Section ReturnedRuns.
Context `{Collaborators}.

(** A run that returns went through every check and is its loop. *)
Lemma gen_spinsamples_returned (np_random : RandomState)
  (coords : ndarray F) (hemiid : ndarray Q) (n_rotate : nat)
  (check_duplicates exact : bool) (seed : seed_arg) (st : spin_state) :
  gen_spinsamples np_random coords hemiid n_rotate check_duplicates exact seed
  = Return st ->
  (last_dim coords = Return 3 /\ ndim (squeeze coords) = 2 /\
   ndim (squeeze hemiid) = 1 /\ len coords = len (squeeze hemiid) /\
   np_max (labels hemiid) = Return 1%Z /\
   np_min (labels hemiid) = Return 0%Z) /\
  rotations np_random (ndim coords =? 2) (len coords)
    (select (hemisphere hemiid 0) (rows coords))
    (select (hemisphere hemiid 1) (rows coords))
    (hemisphere hemiid 0) (hemisphere hemiid 1)
    check_duplicates exact (seq 0 n_rotate)
    {| spinsamples := zeros (zeros 0%Z n_rotate) (len coords);
       cost := zeros f_zero n_rotate;
       warned := false; warnings := []; attempts := [];
       rng := check_random_state np_random seed |}
  = Return st.
Proof.
  unfold gen_spinsamples. intros Hr.
  apply bind_return_inv in Hr as (d & Hd & Hr).
  destruct (d =? 3) eqn:Ed; [|discriminate].
  destruct (ndim (squeeze coords) =? 2) eqn:Ec; [|discriminate].
  cbn [negb orb] in Hr.
  change (ndim (squeeze {| shape := shape hemiid;
                           data := map astype_int (data hemiid) |}))
    with (ndim (squeeze hemiid)) in Hr.
  change (len (squeeze {| shape := shape hemiid;
                          data := map astype_int (data hemiid) |}))
    with (len (squeeze hemiid)) in Hr.
  destruct (ndim (squeeze hemiid) =? 1) eqn:Eh; [|discriminate].
  destruct (len coords =? len (squeeze hemiid)) eqn:El; [|discriminate].
  cbn [negb squeeze data] in Hr. fold (labels hemiid) in Hr.
  apply bind_return_inv in Hr as (mx & Hmx & Hr).
  destruct (mx =? 1)%Z eqn:Emx; [|discriminate]. cbn [negb] in Hr.
  apply bind_return_inv in Hr as (mn & Hmn & Hr).
  destruct (mn =? 0)%Z eqn:Emn; [|discriminate]. cbn [negb] in Hr.
  apply Nat.eqb_eq in Ed, Ec, Eh, El. apply Z.eqb_eq in Emx, Emn.
  subst d mx mn.
  split; [|exact Hr]. repeat split; assumption.
Qed.

End ReturnedRuns.

(** Whatever is returned was checked: the last axis of [coords] has
    length 3, [coords] has two axes longer than one, the labels are one
    per point and, cast to integers, every label is 0 or 1 with both
    present. *)
Theorem returned_runs_passed_validation `{Collaborators}
  (np_random : RandomState) (coords : ndarray F) (hemiid : ndarray Q)
  (n_rotate : nat) (check_duplicates exact : bool) (seed : seed_arg)
  (st : spin_state) :
  gen_spinsamples np_random coords hemiid n_rotate check_duplicates exact seed
  = Return st ->
  last_dim coords = Return 3 /\ ndim (squeeze coords) = 2 /\
  ndim (squeeze hemiid) = 1 /\ len coords = len (squeeze hemiid) /\
  Forall (fun l => l = 0%Z \/ l = 1%Z) (labels hemiid) /\
  In 0%Z (labels hemiid) /\ In 1%Z (labels hemiid).
Proof.
  intros Hr.
  apply gen_spinsamples_returned in Hr
    as ((Hd & Hc & Hh & Hl & Hmx & Hmn) & _).
  apply np_max_is in Hmx as (H1 & Hle). apply np_min_is in Hmn as (H0' & Hge).
  repeat (split; [assumption|]). split; [|split; assumption].
  rewrite Forall_forall in Hle, Hge. apply Forall_forall. intros l Hl'.
  specialize (Hle l Hl'). specialize (Hge l Hl'). lia.
Qed.

Lemma returned_runs_passed_validation_witness :
  last_dim Exact.doc_coords = Return 3 /\
  ndim (squeeze Exact.doc_coords) = 2 /\
  ndim (squeeze Exact.doc_hemi) = 1 /\
  len Exact.doc_coords = len (squeeze Exact.doc_hemi) /\
  Forall (fun l => l = 0%Z \/ l = 1%Z) (labels Exact.doc_hemi) /\
  In 0%Z (labels Exact.doc_hemi) /\ In 1%Z (labels Exact.doc_hemi).
Proof.
  eapply (@returned_runs_passed_validation _ Exact.Scripted []
            Exact.doc_coords Exact.doc_hemi 1 true false (SeedInt 1)).
  vm_compute. reflexivity.
Defined.

(** Labels that are not exactly the two values 0 and 1 are refused: once
    the shape checks have passed, a label other than 0 and 1 (after the
    cast to integer) or a hemisphere without any point raises the domain
    error. *)
Theorem bad_labels_are_refused `{Collaborators}
  (np_random : RandomState) (coords : ndarray F) (hemiid : ndarray Q)
  (n_rotate : nat) (check_duplicates exact : bool) (seed : seed_arg) :
  last_dim coords = Return 3 -> ndim (squeeze coords) = 2 ->
  ndim (squeeze hemiid) = 1 -> len coords = len (squeeze hemiid) ->
  data hemiid <> [] ->
  (Exists (fun l => l <> 0%Z /\ l <> 1%Z) (labels hemiid) \/
   ~ In 0%Z (labels hemiid) \/ ~ In 1%Z (labels hemiid)) ->
  gen_spinsamples np_random coords hemiid n_rotate check_duplicates exact seed
  = Raise HemiidDomainError.
Proof.
  intros Hd Hc Hh Hl Hne Hbad. unfold gen_spinsamples.
  rewrite Hd. cbn [Py.bind Nat.eqb negb orb].
  rewrite Hc. cbn [Nat.eqb negb].
  change (ndim (squeeze {| shape := shape hemiid;
                           data := map astype_int (data hemiid) |}))
    with (ndim (squeeze hemiid)).
  rewrite Hh. cbn [Nat.eqb negb].
  change (len (squeeze {| shape := shape hemiid;
                          data := map astype_int (data hemiid) |}))
    with (len (squeeze hemiid)).
  rewrite Hl, Nat.eqb_refl. cbn [negb squeeze data].
  fold (labels hemiid).
  assert (Hne' : labels hemiid <> []).
  { unfold labels. destruct (data hemiid); [contradiction | discriminate]. }
  destruct (np_max (labels hemiid)) as [mx|e] eqn:Hmx.
  2: { destruct (labels hemiid); [contradiction | discriminate]. }
  cbn [Py.bind]. destruct (mx =? 1)%Z eqn:Emx; [|reflexivity].
  cbn [negb].
  destruct (np_min (labels hemiid)) as [mn|e] eqn:Hmn.
  2: { destruct (labels hemiid); [contradiction | discriminate]. }
  cbn [Py.bind]. destruct (mn =? 0)%Z eqn:Emn; [|reflexivity].
  exfalso. apply Z.eqb_eq in Emx, Emn. subst mx mn.
  apply np_max_is in Hmx as (H1 & Hle). apply np_min_is in Hmn as (H0' & Hge).
  destruct Hbad as [Hex|[Hn|Hn]]; [|exact (Hn H0') | exact (Hn H1)].
  apply Exists_exists in Hex as (l & Hin & Hl0 & Hl1).
  rewrite Forall_forall in Hle, Hge.
  specialize (Hle l Hin). specialize (Hge l Hin). lia.
Qed.

Lemma bad_labels_are_refused_witness :
  gen_spinsamples (H0 := Exact.Scripted) [] Exact.doc_coords
    {| shape := [4]; data := [0#1; 1#1; 2#1; 1#1]%Q |}
    5 true false (SeedInt 1) = Raise HemiidDomainError.
Proof.
  apply (@bad_labels_are_refused _ Exact.Scripted).
  - reflexivity.
  - reflexivity.
  - reflexivity.
  - reflexivity.
  - discriminate.
  - left. apply Exists_cons_tl, Exists_cons_tl, Exists_cons_hd.
    split; discriminate.
Defined.

(** ** Duplicate avoidance *)

Lemma mask_assign_length {A} (mask : list bool) (vals arr r : list A) :
  mask_assign mask vals arr = Return r -> length r = length arr.
Proof.
  unfold mask_assign.
  destruct (negb (length mask =? length arr)); [discriminate|].
  destruct (length vals =? count_true mask).
  - intros E. injection E as <-. apply mask_fill_length.
  - destruct vals as [|v [|w vals]]; try discriminate.
    intros E. injection E as <-. apply mask_fill_length.
Qed.

Lemma all_equal_iff (u v : list Z) :
  length u = length v -> (all_equal u v = true <-> u = v).
Proof.
  unfold all_equal. revert v.
  induction u as [|x u IH]; intros [|y v] Hlen; simpl in *;
    try discriminate.
  - split; reflexivity.
  - injection Hlen as Hlen. rewrite andb_true_iff, Z.eqb_eq, (IH v Hlen).
    split; [intros (-> & ->); reflexivity | intros E; injection E; auto].
Qed.

Section Freshness.
Context `{Collaborators}.
Variable np_random : RandomState.
Variable coords_2d : bool.
Variable N : nat.
Variables coords_l coords_r : matrix.
Variables m_l m_r : list bool.
Variables check_duplicates exact : bool.

(** A candidate has one entry per point. *)
Lemma candidate_length (seed seed' : RandomState) (r : list Z) (c : F) :
  candidate np_random coords_2d N coords_l coords_r m_l m_r exact seed
  = Return (r, c, seed') ->
  length r = N.
Proof.
  unfold candidate.
  destruct (_gen_rotation np_random (SeedInstance seed)) as [[rl rr] s1].
  destruct (negb coords_2d); [discriminate|].
  intros Hr. apply bind_return_inv in Hr as ([[lcol rcol] ccost] & _ & Hr).
  apply bind_return_inv in Hr as (vl & _ & Hr).
  apply bind_return_inv in Hr as (r1 & H1 & Hr).
  apply bind_return_inv in Hr as (vr & _ & Hr).
  apply bind_return_inv in Hr as (r2 & H2 & Hr).
  injection Hr as <- _ _.
  apply mask_assign_length in H1, H2. rewrite H2, H1.
  unfold zeros. apply repeat_length.
Qed.

(** The loop leaves before its last allowed pass only with a candidate
    that is not a duplicate. *)
Lemma attempts_loop_fresh (budget count : nat) (spins : list (list Z))
  (n : nat) (seed seed' : RandomState) (r : list Z) (c : F) (k : nat) :
  count + budget = max_attempts - 1 ->
  attempts_loop np_random coords_2d N coords_l coords_r m_l m_r
                check_duplicates exact budget count spins n seed
  = Return (r, c, k, seed') ->
  length r = N /\ count < k <= max_attempts /\
  (k < max_attempts -> is_duplicated N check_duplicates r spins n = false).
Proof.
  revert count seed. induction budget as [|b IH]; intros count seed Hb;
    simpl; intros Hr;
    apply bind_return_inv in Hr as ([[r0 c0] s0] & Hc & Hr).
  - injection Hr as <- <- <- <-.
    split; [eapply candidate_length; exact Hc|].
    unfold max_attempts in *. split; lia.
  - destruct (is_duplicated N check_duplicates r0 spins n) eqn:Ed;
      cbn [andb] in Hr.
    + destruct (count + 1 <? max_attempts) eqn:El.
      * apply IH in Hr as (Hlen & Hk & Hf); [|lia].
        split; [exact Hlen|]. split; [lia | exact Hf].
      * injection Hr as <- <- <- <-. apply Nat.ltb_ge in El.
        split; [eapply candidate_length; exact Hc|].
        unfold max_attempts in *. split; lia.
    + injection Hr as <- <- <- <-.
      split; [eapply candidate_length; exact Hc|].
      unfold max_attempts in *. split; [lia|]. intros _. exact Ed.
Qed.

End Freshness.

Lemma not_duplicated_is_new (N : nat) (r : list Z) (spins : list (list Z))
  (n : nat) :
  length r = N -> length spins = N ->
  is_duplicated N true r spins n = false ->
  r <> arange N /\ forall j, j < n -> column 0%Z j spins <> r.
Proof.
  intros Hr Hs Hd. unfold is_duplicated in Hd.
  destruct (seen_before r spins n) eqn:Es; [discriminate|].
  destruct (all_equal r (inds N)) eqn:Ei; [discriminate|].
  split.
  - intros E. unfold inds in Ei. rewrite <- E in Ei.
    assert (all_equal r r = true) by (apply all_equal_iff; reflexivity).
    congruence.
  - intros j Hj E. unfold seen_before in Es.
    assert (Hex : existsb (fun j => all_equal r (column 0%Z j spins))
                          (seq 0 n) = true).
    { apply existsb_exists. exists j. split; [apply in_seq; lia|].
      apply all_equal_iff; [|symmetry; exact E].
      rewrite column_length. lia. }
    congruence.
Qed.

Section RunBookkeeping.
Context `{Collaborators}.
Variable np_random : RandomState.
Variable coords_2d : bool.
Variable N : nat.
Variables coords_l coords_r : matrix.
Variables m_l m_r : list bool.
Variables check_duplicates exact : bool.
Variable n_rotate : nat.

Lemma rotation_bookkeeping (n : nat) (st st' : spin_state) :
  bookkeeping N check_duplicates n_rotate n st ->
  rotation np_random coords_2d N coords_l coords_r m_l m_r
           check_duplicates exact n st = Return st' ->
  bookkeeping N check_duplicates n_rotate (S n) st'.
Proof.
  intros Hb Hr Hn. assert (Hn' : n <= n_rotate) by lia.
  destruct (Hb Hn') as (Hal & Hsl & Hrows & Hwd & Hbd & Hnew). clear Hb.
  unfold rotation in Hr.
  apply bind_return_inv in Hr as ([[[r c] k] s] & Hloop & Hr).
  pose proof (rotation_warning_discipline np_random coords_2d N coords_l
                coords_r m_l m_r check_duplicates exact n st st' Hwd) as Hwd'.
  unfold rotation in Hwd'. rewrite Hloop in Hwd'. cbn [Py.bind] in Hwd'.
  specialize (Hwd' Hr).
  injection Hr as <-. cbn [spinsamples attempts] in *.
  apply attempts_loop_fresh in Hloop as (Hrl & Hk & Hfresh);
    [|unfold max_attempts; lia].
  split; [rewrite length_app, Hal; simpl; lia|].
  split; [rewrite set_column_length; exact Hsl|].
  split; [apply set_column_row_lengths; exact Hrows|].
  split; [exact Hwd'|].
  split; [apply Forall_app; split; [exact Hbd | constructor; [lia|constructor]]|].
  intros Hcd j Hj Hlt.
  assert (Hcoln : column 0%Z n (set_column n r (spinsamples st)) = r).
  { apply (column_set_column_same 0%Z n n_rotate); [lia | exact Hrows | lia]. }
  destruct (Nat.eq_dec j n) as [->|Hne].
  - rewrite app_nth2 in Hlt by lia.
    rewrite Hal, Nat.sub_diag in Hlt. simpl in Hlt.
    rewrite Hcoln.
    assert (Hd : is_duplicated N true r (spinsamples st) n = false).
    { rewrite <- Hcd. apply Hfresh. exact Hlt. }
    destruct (not_duplicated_is_new N r (spinsamples st) n Hrl Hsl Hd)
      as (Hid & Hprev).
    split; [exact Hid|]. intros i Hi.
    rewrite column_set_column_other by lia. apply Hprev. exact Hi.
  - rewrite app_nth1 in Hlt by lia.
    rewrite column_set_column_other by exact Hne.
    destruct (Hnew Hcd j) as (Hid & Hprev); [lia | exact Hlt |].
    split; [exact Hid|]. intros i Hi.
    rewrite column_set_column_other by lia. apply Hprev. exact Hi.
Qed.

End RunBookkeeping.

Lemma run_bookkeeping `{Collaborators}
  (np_random : RandomState) (coords : ndarray F) (hemiid : ndarray Q)
  (n_rotate : nat) (check_duplicates exact : bool) (seed : seed_arg)
  (st : spin_state) :
  gen_spinsamples np_random coords hemiid n_rotate check_duplicates exact seed
  = Return st ->
  bookkeeping (len coords) check_duplicates n_rotate n_rotate st.
Proof.
  intros Hr. apply gen_spinsamples_returned in Hr as (_ & Hr).
  apply (rotations_invariant np_random (ndim coords =? 2) (len coords)
           (select (hemisphere hemiid 0) (rows coords))
           (select (hemisphere hemiid 1) (rows coords))
           (hemisphere hemiid 0) (hemisphere hemiid 1)
           check_duplicates exact
           (bookkeeping (len coords) check_duplicates n_rotate)) in Hr.
  - exact Hr.
  - intros n s s'. apply rotation_bookkeeping.
  - intros _. cbn. unfold zeros. rewrite repeat_length.
    split; [reflexivity|]. split; [reflexivity|]. split.
    { apply Forall_forall. intros row Hrow.
      apply repeat_spec in Hrow. subst row. apply repeat_length. }
    split; [split; [auto | discriminate]|].
    split; [constructor|]. intros _ j Hj. lia.
Qed.

(** With duplicate checking, a column that took fewer than 500 attempts
    is not the identity mapping and differs from every column before
    it. *)
Theorem accepted_within_budget_is_new `{Collaborators}
  (np_random : RandomState) (coords : ndarray F) (hemiid : ndarray Q)
  (n_rotate : nat) (exact : bool) (seed : seed_arg) (st : spin_state)
  (n : nat) :
  gen_spinsamples np_random coords hemiid n_rotate true exact seed
  = Return st ->
  n < n_rotate -> nth n (attempts st) 0 < max_attempts ->
  column 0%Z n (spinsamples st) <> arange (len coords) /\
  forall j, j < n ->
    column 0%Z j (spinsamples st) <> column 0%Z n (spinsamples st).
Proof.
  intros Hr Hn Hk. apply run_bookkeeping in Hr.
  destruct (Hr (Nat.le_refl _)) as (_ & _ & _ & _ & _ & Hnew).
  apply (Hnew eq_refl n Hn Hk).
Qed.

Lemma accepted_within_budget_is_new_witness :
  exists st,
    gen_spinsamples (H0 := Exact.Scripted) [] Exact.doc_coords Exact.doc_hemi
                    1 true false (SeedInt 1) = Return st /\
    column 0%Z 0 (spinsamples st) <> arange (len Exact.doc_coords) /\
    forall j, j < 0 ->
      column 0%Z j (spinsamples st) <> column 0%Z 0 (spinsamples st).
Proof.
  eexists. split; [vm_compute; reflexivity|].
  apply (@accepted_within_budget_is_new _ Exact.Scripted [] Exact.doc_coords
           Exact.doc_hemi 1 false (SeedInt 1)).
  - vm_compute. reflexivity.
  - lia.
  - vm_compute. lia.
Defined.

(** With duplicate checking, a run that issues no warning holds no
    duplicate: no column is the identity mapping and no two columns are
    equal. *)
Theorem silent_run_has_no_duplicates `{Collaborators}
  (np_random : RandomState) (coords : ndarray F) (hemiid : ndarray Q)
  (n_rotate : nat) (exact : bool) (seed : seed_arg) (st : spin_state) :
  gen_spinsamples np_random coords hemiid n_rotate true exact seed
  = Return st ->
  warnings st = [] ->
  forall j, j < n_rotate ->
    column 0%Z j (spinsamples st) <> arange (len coords) /\
    forall i, i < j ->
      column 0%Z i (spinsamples st) <> column 0%Z j (spinsamples st).
Proof.
  intros Hr Hw j Hj. apply run_bookkeeping in Hr.
  destruct (Hr (Nat.le_refl _)) as (Hal & _ & _ & (Hf & Ht) & Hbd & Hnew).
  apply (Hnew eq_refl j Hj).
  assert (Hne : Forall (fun k => k <> max_attempts) (attempts st)).
  { destruct (warned st).
    - destruct (Ht eq_refl) as (E & _). rewrite Hw in E. discriminate.
    - apply Hf. reflexivity. }
  rewrite Forall_forall in Hbd, Hne.
  assert (Hin : In (nth j (attempts st) 0) (attempts st))
    by (apply nth_In; lia).
  specialize (Hbd _ Hin). specialize (Hne _ Hin). lia.
Qed.

Lemma silent_run_has_no_duplicates_witness :
  exists st,
    gen_spinsamples (H0 := Exact.Scripted) [] Exact.doc_coords Exact.doc_hemi
                    1 true false (SeedInt 1) = Return st /\
    column 0%Z 0 (spinsamples st) <> arange (len Exact.doc_coords).
Proof.
  eexists. split; [vm_compute; reflexivity|].
  apply (@silent_run_has_no_duplicates _ Exact.Scripted [] Exact.doc_coords
           Exact.doc_hemi 1 false (SeedInt 1)).
  - vm_compute. reflexivity.
  - vm_compute. reflexivity.
  - lia.
Defined.

(** Every column is filled after at least one and at most 500 attempts,
    and a run warns exactly when some column used all 500. *)
Theorem attempts_within_budget `{Collaborators}
  (np_random : RandomState) (coords : ndarray F) (hemiid : ndarray Q)
  (n_rotate : nat) (check_duplicates exact : bool) (seed : seed_arg)
  (st : spin_state) :
  gen_spinsamples np_random coords hemiid n_rotate check_duplicates exact seed
  = Return st ->
  length (attempts st) = n_rotate /\
  Forall (fun k => 1 <= k <= max_attempts) (attempts st) /\
  (warnings st <> [] <-> In max_attempts (attempts st)).
Proof.
  intros Hr. apply run_bookkeeping in Hr.
  destruct (Hr (Nat.le_refl _)) as (Hal & _ & _ & (Hf & Ht) & Hbd & _).
  split; [exact Hal|]. split; [exact Hbd|].
  destruct (warned st).
  - destruct (Ht eq_refl) as (-> & Hin). split; [auto | discriminate].
  - destruct (Hf eq_refl) as (-> & Hall). split; [intros E; contradiction|].
    intros Hin. rewrite Forall_forall in Hall.
    exfalso. exact (Hall _ Hin eq_refl).
Qed.

Lemma attempts_within_budget_witness :
  exists st,
    gen_spinsamples (H0 := Exact.Scripted) [] Exact.two_coords Exact.two_hemi
                    2 true false (SeedInt 1) = Return st /\
    length (attempts st) = 2 /\
    Forall (fun k => 1 <= k <= max_attempts) (attempts st) /\
    (warnings st <> [] <-> In max_attempts (attempts st)).
Proof.
  eexists. split; [vm_compute; reflexivity|].
  apply (@attempts_within_budget _ Exact.Scripted [] Exact.two_coords
           Exact.two_hemi 2 true false (SeedInt 1)).
  vm_compute. reflexivity.
Defined.

(* ================================================================== *)
(** * Further properties of the rotation generator *)

(** The left rotation never has a negative determinant: a negative one
    has the sign of its first column changed. *)
Theorem left_rotation_determinant_not_negative
  `{Collaborators} {DL : DetLaws}
  (np_random : RandomState) (seed : seed_arg) :
  f_ltb (linalg_det (fst (fst (_gen_rotation np_random seed)))) f_zero
  = false.
Proof.
  unfold _gen_rotation.
  destruct (rs_normal (check_random_state np_random seed) 3 3) as [g rs].
  destruct (linalg_qr g) as [q t]. cbn [fst].
  destruct (f_ltb (linalg_det (matmul q (diag_matrix (map sign (diag_of t)))))
                  f_zero) eqn:E.
  - rewrite det_negate_column0. apply neg_negative. exact E.
  - exact E.
Qed.

Lemma nth_negate_column0 (m : list (list Z)) (i j : nat) :
  nth j (nth i (negate_column0 (H := Exact.ZFloat) m) []) 0%Z
  = if j =? 0 then (- nth 0 (nth i m []) 0)%Z else nth j (nth i m []) 0%Z.
Proof.
  revert i. induction m as [|row m IH]; intros i.
  - destruct i, j; reflexivity.
  - destruct i as [|i].
    + destruct row as [|x t]; destruct j; reflexivity.
    + apply IH.
Qed.

Lemma det3_negate_column0 (m : list (list Z)) :
  Exact.det3 (negate_column0 (H := Exact.ZFloat) m) = (- Exact.det3 m)%Z.
Proof.
  unfold Exact.det3. rewrite !nth_negate_column0. simpl Nat.eqb. cbv iota.
  ring.
Qed.

Lemma Scripted_DetLaws : @DetLaws Exact.ZFloat Exact.Scripted.
Proof.
  constructor; simpl.
  - exact det3_negate_column0.
  - intros x Hx. apply Z.ltb_lt in Hx. apply Z.ltb_ge. lia.
Qed.

Lemma left_rotation_determinant_not_negative_witness :
  f_ltb (Float64 := Exact.ZFloat)
        (linalg_det (Collaborators := Exact.Scripted)
           (fst (fst (_gen_rotation (H0 := Exact.Scripted)
                        [[[0; 1; 0]; [1; 0; 0]; [0; 0; 1]]%Z] SeedNone))))
        (f_zero (Float64 := Exact.ZFloat))
  = false.
Proof.
  apply (@left_rotation_determinant_not_negative _ _ Scripted_DetLaws).
Defined.

(** In exact arithmetic the right rotation is the left one with the
    entries that couple x with y or z negated: the mirror image across the
    Y-Z plane. *)
Theorem right_rotation_entries
  (np_random : RandomState (Collaborators := Exact.Scripted))
  (seed : seed_arg (H0 := Exact.Scripted))
  (a b c d e f g h k : Z) :
  fst (fst (_gen_rotation np_random seed))
  = [[a; b; c]; [d; e; f]; [g; h; k]] ->
  snd (fst (_gen_rotation np_random seed))
  = [[a; - b; - c]; [- d; e; f]; [- g; h; k]]%Z.
Proof.
  unfold _gen_rotation.
  destruct (rs_normal (check_random_state np_random seed) 3 3) as [n rs].
  destruct (linalg_qr n) as [q t]. cbn [fst snd].
  intros ->.
  cbv [matmul reflect dot f_sum column ncols zip_with map seq nth fold_left
       length f_add f_mul f_neg f_one f_zero Exact.ZFloat].
  repeat (f_equal; try ring).
Qed.

Lemma right_rotation_entries_witness :
  snd (fst (_gen_rotation (H0 := Exact.Scripted) [] (SeedInt 1)))
  = [[0; Z.opp 0; Z.opp (-1)]; [Z.opp 0; 1; 0]; [Z.opp 1; 0; 0]]%Z.
Proof.
  apply (right_rotation_entries [] (SeedInt 1) 0 0 (-1) 0 1 0 1 0 0).
  reflexivity.
Defined.

(* ================================================================== *)
(** * Further properties of the correlation test *)

Section PearsonFacts.
Context `{StatRoutines}.

Lemma permutation_loop_ext
  (f g : nat -> RandomState -> result (ndarray F * RandomState))
  (abs_true : list F) (perms : list nat) (permutations : list Z)
  (rs : RandomState) :
  (forall perm rs, In perm perms -> f perm rs = g perm rs) ->
  permutation_loop f abs_true perms permutations rs
  = permutation_loop g abs_true perms permutations rs.
Proof.
  revert permutations rs.
  induction perms as [|perm perms IH]; intros permutations rs Hfg; simpl.
  - reflexivity.
  - rewrite (Hfg perm rs (or_introl eq_refl)).
    destruct (g perm rs) as [[null rs1]|e]; simpl; [|reflexivity].
    apply IH. intros p r Hin. apply Hfg. right. exact Hin.
Qed.

(** The counts of a loop whose null statistics do not touch the random
    state do not depend on that state. *)
Lemma permutation_loop_stateless
  (f : nat -> RandomState -> result (ndarray F * RandomState))
  (g : nat -> result (ndarray F))
  (abs_true : list F) (perms : list nat) (permutations : list Z)
  (rs1 rs2 : RandomState) :
  (forall perm rs, f perm rs = (c <- g perm ;; Return (c, rs))) ->
  (x <- permutation_loop f abs_true perms permutations rs1 ;; Return (fst x))
  = (x <- permutation_loop f abs_true perms permutations rs2 ;;
     Return (fst x)).
Proof.
  intros Hf. revert permutations.
  induction perms as [|perm perms IH]; intros permutations; simpl.
  - reflexivity.
  - rewrite !Hf. destruct (g perm) as [c|e]; simpl; [apply IH | reflexivity].
Qed.

Lemma assess_stateless
  (f : nat -> RandomState -> result (ndarray F * RandomState))
  (g : nat -> result (ndarray F))
  (true_stat : ndarray F) (n_perm : nat) (rs1 rs2 : RandomState) :
  (forall perm rs, f perm rs = (c <- g perm ;; Return (c, rs))) ->
  assess f true_stat n_perm rs1 = assess f true_stat n_perm rs2.
Proof.
  intros Hf. unfold assess.
  pose proof (permutation_loop_stateless f g (data (np_abs true_stat))
                (seq 0 n_perm) (ones (shape true_stat)) rs1 rs2 Hf) as Hl.
  destruct (permutation_loop f (data (np_abs true_stat)) (seq 0 n_perm)
              (ones (shape true_stat)) rs1) as [[p1 s1]|e1];
    destruct (permutation_loop f (data (np_abs true_stat)) (seq 0 n_perm)
                (ones (shape true_stat)) rs2) as [[p2 s2]|e2];
    simpl in Hl |- *; congruence.
Qed.

Lemma shuffled_by_resamples (a b : ndarray F) (resamples : ndarray Z)
  (perm : nat) (rs : RandomState) :
  shuffled_correlation a b (Some resamples) perm rs
  = (c <- (idx <- np_column resamples perm ;;
           ap <- np_take a idx ;;
           correlation ap b) ;;
     Return (c, rs)).
Proof.
  unfold shuffled_correlation.
  destruct (np_column resamples perm) as [idx|e]; simpl; [|reflexivity].
  destruct (np_take a idx) as [ap|e]; simpl; [|reflexivity].
  destruct (correlation ap b) as [c|e]; reflexivity.
Qed.

End PearsonFacts.

(** When [resamples] is given, [seed] has no effect on
    [permtest_pearsonr]: neither the seed nor the state of numpy's
    process-wide generator changes the statistic or the p-values. *)
Theorem pearson_resamples_ignore_seed `{StatRoutines}
  (g1 g2 : RandomState) (a b : ndarray F) (axis : option nat)
  (n_perm : nat) (resamples : ndarray Z) (seed1 seed2 : seed_arg) :
  permtest_pearsonr g1 a b axis n_perm (Some resamples) seed1
  = permtest_pearsonr g2 a b axis n_perm (Some resamples) seed2.
Proof.
  unfold permtest_pearsonr, permtest_pearsonr_setup, finish.
  destruct (_chk2_asarray a b axis) as [[a' b'] axis'].
  destruct (negb (len a' =? len b')); [reflexivity|].
  destruct ((size a' =? 0) || (size b' =? 0)); [reflexivity|].
  destruct (last_dim resamples) as [d|e]; cbn [Py.bind]; [|reflexivity].
  destruct (d <? n_perm); cbn [Py.bind]; [reflexivity|].
  destruct (correlation a' b') as [true_corr|e]; cbn [Py.bind];
    [|reflexivity].
  apply (assess_stateless _
           (fun perm => idx <- np_column resamples perm ;;
                        ap <- np_take a' idx ;;
                        correlation ap b')).
  intros perm rs. apply shuffled_by_resamples.
Qed.

(** [permtest_pearsonr] reads the first [n_perm] columns of
    [resamples] and no other: two resampling arrays with at least
    [n_perm] columns that agree on those give the same result. *)
Theorem pearson_uses_first_columns `{StatRoutines}
  (np_random : RandomState) (a b : ndarray F) (axis : option nat)
  (n_perm : nat) (r1 r2 : ndarray Z) (seed : seed_arg) (d1 d2 : nat) :
  last_dim r1 = Return d1 -> last_dim r2 = Return d2 ->
  n_perm <= d1 -> n_perm <= d2 ->
  (forall j, j < n_perm -> np_column r1 j = np_column r2 j) ->
  permtest_pearsonr np_random a b axis n_perm (Some r1) seed
  = permtest_pearsonr np_random a b axis n_perm (Some r2) seed.
Proof.
  intros H1' H2' Hd1 Hd2 Hcol.
  unfold permtest_pearsonr, permtest_pearsonr_setup, finish.
  destruct (_chk2_asarray a b axis) as [[a' b'] axis'].
  destruct (negb (len a' =? len b')); [reflexivity|].
  destruct ((size a' =? 0) || (size b' =? 0)); [reflexivity|].
  rewrite H1', H2'. cbn [Py.bind].
  replace (d1 <? n_perm) with false by (symmetry; apply Nat.ltb_ge; lia).
  replace (d2 <? n_perm) with false by (symmetry; apply Nat.ltb_ge; lia).
  cbn [Py.bind].
  destruct (correlation a' b') as [true_corr|e]; cbn [Py.bind];
    [|reflexivity].
  unfold assess.
  rewrite (permutation_loop_ext (shuffled_correlation a' b' (Some r1))
             (shuffled_correlation a' b' (Some r2))).
  - reflexivity.
  - intros perm rs Hin. apply in_seq in Hin.
    unfold shuffled_correlation. rewrite Hcol by lia. reflexivity.
Qed.

Lemma pearson_uses_first_columns_witness :
  permtest_pearsonr (H1 := Exact.ScriptedStats) [] Exact.sample Exact.paired
    (Some 0) 2
    (Some {| shape := [3; 2]; data := [0; 2;  1; 1;  2; 0]%Z |}) (SeedInt 1)
  = permtest_pearsonr (H1 := Exact.ScriptedStats) [] Exact.sample Exact.paired
      (Some 0) 2
      (Some {| shape := [3; 3]; data := [0; 2; 9;  1; 1; 9;  2; 0; 9]%Z |})
      (SeedInt 1).
Proof.
  apply (@pearson_uses_first_columns _ _ Exact.ScriptedStats [] Exact.sample
           Exact.paired (Some 0) 2 _ _ (SeedInt 1) 2 3).
  - reflexivity.
  - reflexivity.
  - lia.
  - lia.
  - intros [|[|j]] Hj; [reflexivity | reflexivity | lia].
Defined.

(* ================================================================== *)
(** * netneurotools.utils *)

Section TriuFacts.
Context `{Float64}.

Lemma combine_fst_snd {A B} (l : list (A * B)) :
  combine (map fst l) (map snd l) = l.
Proof.
  induction l as [|[a b] l IH]; simpl; [reflexivity | rewrite IH; reflexivity].
Qed.

Lemma mapM_app {X Y} (f : X -> result Y) (l1 l2 : list X)
  (r1 r2 : list Y) :
  mapM f l1 = Return r1 -> mapM f l2 = Return r2 ->
  mapM f (l1 ++ l2) = Return (r1 ++ r2).
Proof.
  revert r1. induction l1 as [|x l1 IH]; intros r1 H1' H2'; simpl in *.
  - injection H1' as <-. exact H2'.
  - apply bind_return_inv in H1' as (y & Hy & H1').
    apply bind_return_inv in H1' as (ys & Hys & H1').
    injection H1' as <-. rewrite Hy. simpl.
    rewrite (IH ys Hys H2'). reflexivity.
Qed.

Lemma skipn_cons_nth {A} (l : list A) (a : nat) (x : A) :
  nth_error l a = Some x -> skipn a l = x :: skipn (S a) l.
Proof.
  revert a. induction l as [|y l IH]; intros [|a] E; simpl in *;
    try discriminate.
  - injection E as ->. reflexivity.
  - apply IH. exact E.
Qed.

Lemma lookup_row_segment (data : matrix) (i : nat) (row : list F)
  (a len : nat) :
  nth_error data i = Some row -> a + len <= length row ->
  mapM (fun p : nat * nat =>
          match nth_error data (fst p) with
          | Some row => match nth_error row (snd p) with
                        | Some x => Return x
                        | None => Raise IndexError
                        end
          | None => Raise IndexError
          end)
       (map (fun j => (i, j)) (seq a len))
  = Return (firstn len (skipn a row)).
Proof.
  intros Hrow. revert a. induction len as [|len IH]; intros a Ha; simpl.
  - reflexivity.
  - rewrite Hrow.
    destruct (nth_error row a) as [x|] eqn:Ex.
    2: { apply nth_error_None in Ex. lia. }
    simpl. rewrite (IH (S a)) by lia. simpl.
    rewrite (skipn_cons_nth row a x Ex). reflexivity.
Qed.

Lemma triangle_rows (data : matrix) (n m : nat) (is_ : list nat) :
  Forall (fun row => length row = m) data -> n <= m ->
  n <= length data -> Forall (fun i => i < n) is_ ->
  mapM (fun p : nat * nat =>
          match nth_error data (fst p) with
          | Some row => match nth_error row (snd p) with
                        | Some x => Return x
                        | None => Raise IndexError
                        end
          | None => Raise IndexError
          end)
       (flat_map (fun i => map (fun j => (i, j)) (seq (S i) (n - S i))) is_)
  = Return (flat_map (fun i => firstn (n - S i) (skipn (S i) (nth i data [])))
                     is_).
Proof.
  intros Hrows Hn Hnd His.
  induction His as [|i is_ Hi _ IH]; cbn [flat_map]; [reflexivity|].
  apply mapM_app; [|exact IH].
  destruct (nth_error data i) as [row|] eqn:Ei.
  2: { apply nth_error_None in Ei. lia. }
  rewrite (nth_error_nth _ _ [] Ei).
  apply lookup_row_segment; [exact Ei|].
  rewrite Forall_forall in Hrows.
  rewrite (Hrows row (nth_error_In _ _ Ei)). lia.
Qed.

Lemma triangle_count (data : matrix) (n m k a : nat) :
  Forall (fun row => length row = m) data -> n <= m ->
  a + k = n -> n <= length data ->
  2 * length (flat_map (fun i => firstn (n - S i)
                                        (skipn (S i) (nth i data [])))
                       (seq a k))
  = k * (k - 1).
Proof.
  intros Hrows Hn. revert a.
  induction k as [|k IH]; intros a Hak Hlen; cbn [seq flat_map];
    [reflexivity|].
  rewrite length_app, length_firstn, length_skipn.
  assert (Hrow : length (nth a data []) = m).
  { rewrite Forall_forall in Hrows. apply Hrows, nth_In. lia. }
  rewrite Hrow.
  assert (E := IH (S a) ltac:(lia) Hlen).
  replace (Nat.min (n - S a) (m - S a)) with k by lia.
  destruct k as [|k']; [lia|].
  replace (S (S k') - 1) with (S k') by lia.
  replace (S k' - 1) with k' in E by lia. nia.
Qed.

End TriuFacts.

(** [get_triu] on a matrix with at least as many columns as rows
    returns, row after row, the entries to the right of the diagonal:
    n(n-1)/2 of them for n rows.  The argument [k] changes nothing. *)
Theorem get_triu_entries `{Float64}
  (data : matrix) (k : Z) (m : nat) :
  Forall (fun row => length row = m) data -> length data <= m ->
  let n := length data in
  let above :=
    flat_map (fun i => firstn (n - S i) (skipn (S i) (nth i data [])))
             (seq 0 n) in
  Utils.get_triu data k = Return above /\
  2 * length above = n * (n - 1).
Proof.
  intros Hrows Hn n above. split.
  - unfold Utils.get_triu, Utils.triu_indices, index_pairs, broadcast_pairs.
    rewrite !length_map, Nat.eqb_refl. cbn [Py.bind].
    rewrite combine_fst_snd.
    apply (triangle_rows data n m);
      [exact Hrows | exact Hn | apply Nat.le_refl |].
    apply Forall_forall. intros i Hi. apply in_seq in Hi. lia.
  - apply (triangle_count data n m n 0); auto.
Qed.

Lemma get_triu_entries_witness :
  Utils.get_triu (H := Exact.ZFloat)
                 [[1; 2; 3]; [4; 5; 6]; [7; 8; 9]]%Z 0
  = Return [2; 3; 6]%Z
  /\ 2 * length [2; 3; 6]%Z = 3 * (3 - 1).
Proof.
  apply (@get_triu_entries Exact.ZFloat
           [[1; 2; 3]; [4; 5; 6]; [7; 8; 9]]%Z 0 3).
  - repeat constructor.
  - simpl. lia.
Defined.

Lemma chunks_row_lengths {A} (k n : nat) (l : list A) :
  length l = n * k -> Forall (fun row => length row = k) (chunks k n l).
Proof.
  revert l. induction n as [|n IH]; intros l Hl; simpl; constructor.
  - rewrite length_firstn. simpl in Hl. lia.
  - apply IH. rewrite length_skipn. simpl in Hl. lia.
Qed.

Lemma concat_chunks {A} (k n : nat) (l : list A) :
  length l = n * k -> concat (chunks k n l) = l.
Proof.
  revert l. induction n as [|n IH]; intros l Hl; simpl.
  - simpl in Hl. apply length_zero_iff_nil in Hl. subst l. reflexivity.
  - rewrite IH by (rewrite length_skipn; simpl in Hl; lia).
    apply firstn_skipn.
Qed.

Lemma chunks_concat {A} (k : nat) (rows_ : list (list A)) :
  Forall (fun row => length row = k) rows_ ->
  chunks k (length rows_) (concat rows_) = rows_.
Proof.
  induction 1 as [|row rows_ Hrow _ IH]; simpl; [reflexivity|].
  subst k.
  rewrite firstn_app, Nat.sub_diag, firstn_all, firstn_O, app_nil_r.
  rewrite skipn_app, Nat.sub_diag, skipn_all, skipn_O, app_nil_l.
  rewrite IH. reflexivity.
Qed.

(** [add_constant] on a checked array of shape (n, m) gives shape
    (n, m + 1): every row is the checked row followed by 1, and dropping
    the last column, as [residualize] does to remove the intercept, gives
    the checked array back. *)
Theorem add_constant_appends_ones `{Float64}
  (check_array : ndarray F -> option (ndarray F))
  (a checked : ndarray F) (n m : nat) :
  check_array a = Some checked ->
  shape checked = [n; m] -> wf checked ->
  exists r,
    Utils.add_constant check_array a = Some r /\
    shape r = [n; S m] /\ wf r /\
    rows r = map (fun row => row ++ [f_one]) (rows checked) /\
    Utils.drop_last_column r = checked.
Proof.
  intros Hc Hs Hwf. unfold Utils.add_constant, Utils.column_stack_ones.
  rewrite Hc, Hs. eexists. split; [reflexivity|].
  assert (Hlen : length (data checked) = n * m).
  { unfold wf in Hwf. rewrite Hwf, Hs. simpl. lia. }
  assert (Hrows : rows checked = chunks m n (data checked)).
  { unfold rows, len. rewrite Hs. simpl. rewrite Nat.mul_1_r. reflexivity. }
  assert (Hrl : Forall (fun row => length row = m) (rows checked)).
  { rewrite Hrows. apply chunks_row_lengths. exact Hlen. }
  assert (Hrn : length (rows checked) = n).
  { rewrite Hrows. apply chunks_length. }
  assert (Hnew : Forall (fun row => length row = S m)
                        (map (fun row => row ++ [f_one]) (rows checked))).
  { apply Forall_map. eapply Forall_impl; [|exact Hrl].
    intros row Hrow. simpl in *. rewrite length_app. simpl. lia. }
  assert (Hr : rows {| shape := [n; S m];
                       data := concat (map (fun row => row ++ [f_one])
                                           (rows checked)) |}
               = map (fun row => row ++ [f_one]) (rows checked)).
  { unfold rows at 1, len. cbn [shape data tl hd size_of fold_right].
    rewrite Nat.mul_1_r. rewrite <- Hrn at 1.
    rewrite <- (length_map (fun row => row ++ [f_one]) (rows checked)).
    apply chunks_concat. exact Hnew. }
  split; [reflexivity|]. split; [|split; [exact Hr|]].
  - unfold wf. cbn [shape data size_of fold_right].
    rewrite <- Hr at 1.
    assert (Hcc : forall (k : nat) (l : list (list F)),
               Forall (fun row => length row = k) l ->
               length (concat l) = length l * k).
    { intros k l Hl. induction Hl as [|row l Hrow _ IH]; simpl;
        [reflexivity | rewrite length_app, IH, Hrow; reflexivity]. }
    rewrite Hr, (Hcc (S m)) by exact Hnew.
    rewrite length_map, Hrn. lia.
  - unfold Utils.drop_last_column. rewrite Hr. cbn [shape].
    rewrite map_map.
    rewrite (map_ext (fun row => removelast (row ++ [f_one])) (fun row => row))
      by (intros row; apply removelast_last).
    rewrite map_id, Hrows, concat_chunks by exact Hlen.
    replace (S m - 1) with m by lia.
    destruct checked as [s d]. simpl in *. subst s. reflexivity.
Qed.

Lemma add_constant_appends_ones_witness :
  exists r : ndarray Z,
    Utils.add_constant (H := Exact.ZFloat) Some
      {| shape := [2; 2]; data := [5; 6; 7; 8]%Z |} = Some r /\
    shape r = [2; 3] /\ wf r /\
    rows r = map (fun row => row ++ [f_one (Float64 := Exact.ZFloat)])
                 (rows {| shape := [2; 2]; data := [5; 6; 7; 8]%Z |}) /\
    Utils.drop_last_column (H := Exact.ZFloat) r
    = {| shape := [2; 2]; data := [5; 6; 7; 8]%Z |}.
Proof.
  apply (@add_constant_appends_ones Exact.ZFloat Some
           {| shape := [2; 2]; data := [5; 6; 7; 8]%Z |}
           {| shape := [2; 2]; data := [5; 6; 7; 8]%Z |} 2 2).
  - reflexivity.
  - reflexivity.
  - reflexivity.
Defined.

(* ================================================================== *)
(** * netneurotools.datasets.fetchers *)

Section FetchFacts.
Import String.
Import Fetchers.
Local Open Scope string_scope.
Variable J : Type.
Variable get_data_dir : option string -> string.
Variable fetch_files : string -> list (string * string * opts) -> list string.
Variable json_load : string -> J.
Variable local_path : string -> string -> string.

(** [fetch_fsaverage] returns, under each of its six surface names, the
    left and the right file of that surface, in this order. *)
Theorem fetch_fsaverage_pairs (i : info) (data_dir url_ : option string) :
  fetches_in_order fetch_files local_path ->
  let here := local_path (get_data_dir data_dir) in
  @fetch_fsaverage J get_data_dir fetch_files i data_dir url_
  = map (fun surf => (surf, Files [here ("fsaverage/surf/lh." ++ surf);
                                   here ("fsaverage/surf/rh." ++ surf)]))
        ["orig"; "white"; "smoothwm"; "pial"; "inflated"; "sphere"]%list.
Proof.
  intros Hf here. unfold fetch_fsaverage. cbv zeta. rewrite !Hf.
  reflexivity.
Qed.

(** [fetch_conte69] returns, under each of its three surface names, the
    left and the right file of that surface, and under ['info'] the
    content of the description file. *)
Theorem fetch_conte69_pairs (i : info) (data_dir url_ : option string) :
  fetches_in_order fetch_files local_path ->
  let here := local_path (get_data_dir data_dir) in
  let surf res hemi :=
    here ("tpl-conte69/tpl-conte69_space-MNI305_variant-fsLR32k_" ++ res
          ++ "." ++ hemi ++ ".surf.gii") in
  @fetch_conte69 J get_data_dir fetch_files json_load i data_dir url_
  = Some (map (fun res => (res, Files [surf res "L"; surf res "R"]))
              ["midthickness"; "inflated"; "vinflated"]%list
          ++ [("info",
               Content (json_load
                          (here "tpl-conte69/template_description.json")))]
         )%list.
Proof.
  intros Hf here surf. unfold fetch_conte69. cbv zeta. rewrite !Hf.
  reflexivity.
Qed.

(** [fetch_cammoun2012] refuses a version other than the three it knows.
    Otherwise every scale is returned with the files of that scale: one
    volume (with the table under ['info']), the left and right
    annotation, or the left and right .gcs atlas, where scale 500 gathers
    the six .gcs files of its three parts.  The .ctab files are asked for
    and not returned. *)
Theorem fetch_cammoun2012_groups (info_of : string -> info)
  (data_dir url_ : option string) :
  fetches_in_order fetch_files local_path ->
  let here f := local_path (get_data_dir data_dir) ("atl-cammoun2012/" ++ f) in
  let fetch := @fetch_cammoun2012 J get_data_dir fetch_files info_of in
  let volume res :=
    here ("atl-Cammoun2012_space-MNI152NLin2009aSym_res-" ++ res
          ++ "_deterministic.nii.gz") in
  let annot res hemi :=
    here ("atl-Cammoun2012_space-fsaverage_res-" ++ res ++ "_hemi-" ++ hemi
          ++ "_deterministic.annot") in
  let gcs res hemi :=
    here ("atl-Cammoun2012_res-" ++ res ++ "_hemi-" ++ hemi
          ++ "_probabilistic.gcs") in
  (forall version,
     version <> "volume" -> version <> "surface" -> version <> "gcs" ->
     fetch version data_dir url_ = None)
  /\
  fetch "volume" data_dir url_
  = Some (app (map (fun res => ("scale" ++ res, File (volume res)))
                   ["033"; "060"; "125"; "250"; "500"]%list)
              [("info",
                File (here
                  "atl-Cammoun2012_space-MNI152NLin2009aSym_info.csv"))])
  /\
  fetch "surface" data_dir url_
  = Some (map (fun res => ("scale" ++ res,
                           Files [annot res "L"; annot res "R"]))
              ["033"; "060"; "125"; "250"; "500"]%list)
  /\
  fetch "gcs" data_dir url_
  = Some (app (map (fun res => ("scale" ++ res,
                                Files [gcs res "L"; gcs res "R"]))
                   ["033"; "060"; "125"; "250"]%list)
              [("scale500",
                Files (flat_map (fun part => [gcs part "L"; gcs part "R"])
                                ["500v1"; "500v2"; "500v3"]%list))]).
Proof.
  intros Hf here fetch volume annot gcs. split; [|split; [|split]].
  - intros version Hv Hs Hg. unfold fetch, fetch_cammoun2012.
    apply String.eqb_neq in Hv, Hs, Hg. cbn [existsb].
    rewrite Hv, Hs, Hg. reflexivity.
  - unfold fetch, fetch_cammoun2012. cbv zeta. rewrite !Hf. reflexivity.
  - unfold fetch, fetch_cammoun2012. cbv zeta. rewrite !Hf. reflexivity.
  - unfold fetch, fetch_cammoun2012. cbv zeta. rewrite !Hf. reflexivity.
Qed.

End FetchFacts.

Section FetchExamples.
Import String.

Lemma fetch_locally_in_order :
  Fetchers.fetches_in_order Fetchers.fetch_locally Fetchers.path_join.
Proof. intros data_dir files. reflexivity. Defined.

Lemma fetch_fsaverage_pairs_witness :
  Fetchers.dict_get
    (@Fetchers.fetch_fsaverage unit (fun _ => "data"%string)
       Fetchers.fetch_locally Fetchers.some_info None None)
    "pial"%string
  = Some (Fetchers.Files ["data/fsaverage/surf/lh.pial"%string;
                          "data/fsaverage/surf/rh.pial"%string]).
Proof.
  rewrite (fetch_fsaverage_pairs unit (fun _ => "data"%string)
             Fetchers.fetch_locally Fetchers.path_join Fetchers.some_info
             None None fetch_locally_in_order).
  reflexivity.
Defined.

Lemma fetch_conte69_pairs_witness :
  option_map (fun d => Fetchers.dict_get d "inflated"%string)
    (@Fetchers.fetch_conte69 unit (fun _ => "data"%string)
       Fetchers.fetch_locally (fun _ => tt) Fetchers.some_info None None)
  = Some (Some (Fetchers.Files
      ["data/tpl-conte69/tpl-conte69_space-MNI305_variant-fsLR32k_inflated.L.surf.gii"%string;
       "data/tpl-conte69/tpl-conte69_space-MNI305_variant-fsLR32k_inflated.R.surf.gii"%string])).
Proof.
  rewrite (fetch_conte69_pairs unit (fun _ => "data"%string)
             Fetchers.fetch_locally (fun _ => tt) Fetchers.path_join
             Fetchers.some_info None None fetch_locally_in_order).
  reflexivity.
Defined.

Lemma fetch_cammoun2012_groups_witness :
  option_map (fun d => Fetchers.dict_get d "scale500"%string)
    (@Fetchers.fetch_cammoun2012 unit (fun _ => "data"%string)
       Fetchers.fetch_locally (fun _ => Fetchers.some_info)
       "gcs"%string None None)
  = Some (Some (Fetchers.Files
      ["data/atl-cammoun2012/atl-Cammoun2012_res-500v1_hemi-L_probabilistic.gcs"%string;
       "data/atl-cammoun2012/atl-Cammoun2012_res-500v1_hemi-R_probabilistic.gcs"%string;
       "data/atl-cammoun2012/atl-Cammoun2012_res-500v2_hemi-L_probabilistic.gcs"%string;
       "data/atl-cammoun2012/atl-Cammoun2012_res-500v2_hemi-R_probabilistic.gcs"%string;
       "data/atl-cammoun2012/atl-Cammoun2012_res-500v3_hemi-L_probabilistic.gcs"%string;
       "data/atl-cammoun2012/atl-Cammoun2012_res-500v3_hemi-R_probabilistic.gcs"%string])).
Proof.
  rewrite (proj2 (proj2 (proj2
             (fetch_cammoun2012_groups unit (fun _ => "data"%string)
                Fetchers.fetch_locally Fetchers.path_join
                (fun _ => Fetchers.some_info) None None
                fetch_locally_in_order)))).
  reflexivity.
Defined.

End FetchExamples.

(* ================================================================== *)
(** * [get_triu] on a matrix that is too narrow *)

Lemma mapM_raises {X Y} (f : X -> result Y) (e : exn) (l : list X) :
  (forall x, (exists y, f x = Return y) \/ f x = Raise e) ->
  (exists x, In x l /\ f x = Raise e) ->
  mapM f l = Raise e.
Proof.
  intros Hf (x & Hin & Hx).
  induction l as [|a l IH]; [contradiction|]. simpl.
  destruct (Hf a) as [(y & Hy)|Ha]; [|rewrite Ha; reflexivity].
  rewrite Hy. simpl.
  destruct Hin as [->|Hin]; [congruence|].
  rewrite (IH Hin). reflexivity.
Qed.

(** With fewer columns than rows (and at least two rows) the indices of
    the triangle leave the matrix and [get_triu] raises IndexError. *)
Theorem get_triu_too_narrow `{Float64}
  (data : matrix) (k : Z) (m : nat) :
  Forall (fun row => length row = m) data ->
  m < length data -> 2 <= length data ->
  Utils.get_triu data k = Raise IndexError.
Proof.
  intros Hrows Hm Hn.
  unfold Utils.get_triu, Utils.triu_indices, index_pairs, broadcast_pairs.
  rewrite !length_map, Nat.eqb_refl. cbn [Py.bind].
  rewrite combine_fst_snd. apply mapM_raises.
  - intros [i j]. cbn [fst snd].
    destruct (nth_error data i) as [row|]; [|right; reflexivity].
    destruct (nth_error row j) as [x|]; [left; eexists|right]; reflexivity.
  - exists (0, length data - 1). split.
    + apply in_flat_map. exists 0. split; [apply in_seq; lia|].
      apply in_map, in_seq. lia.
    + cbn [fst snd].
      destruct (nth_error data 0) as [row|] eqn:E0; [|reflexivity].
      rewrite Forall_forall in Hrows.
      pose proof (Hrows row (nth_error_In _ _ E0)) as Hrow.
      destruct (nth_error row (length data - 1)) as [x|] eqn:Ex;
        [|reflexivity].
      assert (length data - 1 < length row)
        by (apply nth_error_Some; congruence).
      lia.
Qed.

Lemma get_triu_too_narrow_witness :
  Utils.get_triu (H := Exact.ZFloat) [[1; 2]; [3; 4]; [5; 6]]%Z 1
  = Raise IndexError.
Proof.
  apply (@get_triu_too_narrow Exact.ZFloat [[1; 2]; [3; 4]; [5; 6]]%Z 1 2).
  - repeat constructor.
  - simpl. lia.
  - simpl. lia.
Defined.
